(** * fedoicmsg.signing_service: signing backends and the Signer

    A shallow embedding of [src/fedoicmsg/signing_service.py]:
    the local and the web signing services, the response check of the web
    client, and the Signer that gathers stored metadata statements, merges
    them into a request and has the result signed.

    Python dictionaries are finite maps ([gmap]); the request document that
    the Signer mutates in place is a cell of the [world]; exceptions are the
    left summand of the result of a computation in the monad [M]. *)

From stdpp Require Import gmap strings list fin_maps pretty.
From Stdlib Require Import ZArith.

#[local] Set Warnings "-register-all".
#[local] Open Scope string_scope.

(** ** Values and documents *)

(** JSON-compatible claim values: what a [Message] or a [dict] holds. *)
Inductive value :=
| VNull
| VBool (b : bool)
| VInt (z : Z)
| VStr (s : string)
| VList (l : list value)
| VDict (d : gmap string value).

Abbreviation doc := (gmap string value).

(** [v == s] for a claim value and a string. *)
Definition value_eq_str (v : value) (s : string) : bool :=
  match v with
  | VStr s' => bool_decide (s' = s)
  | _ => false
  end.

(** [d.update(other)]: every key of [other] is written into [d]. *)
Definition dict_update {V} (d other : gmap string V) : gmap string V :=
  other ∪ d.

(** ** Exceptions *)

Inductive exn :=
| SigningServiceError (msg : string)
| AssertionError
| JWSException (msg : string)
| KeyError (key : string)
| ValueError (msg : string)
| AttributeError (msg : string)
| TypeError (msg : string)
| CollaboratorError (msg : string).

(** ** The world a call runs in *)

(** Records handed to [logger.error], with the arguments of the format
    string kept apart. *)
Inductive log_record :=
| LogSignerItems (iss : string) (items : gmap string (list string))
| LogNoStatements (context : string).

Record world := World {
  w_req : doc;                    (* the caller's request object *)
  w_sign_calls : list doc;        (* documents given to signing_service.create *)
  w_verify_calls : list string;   (* tokens given to verify_compact *)
  w_log : list log_record         (* logger.error output *)
}.

Definition M (A : Type) : Type := world → (exn + A) * world.

#[export] Instance M_ret : MRet M := λ A a w, (inr a, w).
#[export] Instance M_bind : MBind M := λ A B f m w,
  match m w with
  | (inl e, w') => (inl e, w')
  | (inr a, w') => f a w'
  end.

Definition raise {A} (e : exn) : M A := λ w, (inl e, w).
Definition lift {A} (r : exn + A) : M A := λ w, (r, w).

(** [try: m except KeyError: h] *)
Definition except_KeyError {A} (m : M A) (h : M A) : M A := λ w,
  match m w with
  | (inl (KeyError _), w') => h w'
  | r => r
  end.

Definition get_req : M doc := λ w, (inr (w_req w), w).
Definition put_req (d : doc) : M unit := λ w,
  (inr tt, World d (w_sign_calls w) (w_verify_calls w) (w_log w)).
Definition record_sign_call (d : doc) : M unit := λ w,
  (inr tt, World (w_req w) (w_sign_calls w ++ [d]) (w_verify_calls w) (w_log w)).
Definition record_verify_call (t : string) : M unit := λ w,
  (inr tt, World (w_req w) (w_sign_calls w) (w_verify_calls w ++ [t]) (w_log w)).
Definition logger_error (r : log_record) : M unit := λ w,
  (inr tt, World (w_req w) (w_sign_calls w) (w_verify_calls w) (w_log w ++ [r])).

(** [d[k]] on a dictionary. *)
Definition getitem {V} (d : gmap string V) (k : string) : exn + V :=
  match d !! k with
  | Some v => inr v
  | None => inl (KeyError k)
  end.

(** ** External collaborators

    The JWT/JWS library, the HTTP client and the file system are not part
    of the module; they are taken as an interface. *)

Inductive http_method := POST | PUT | GET.

Record response := Response {
  status_code : Z;
  text : string;
  headers : gmap string string
}.

Record req_args_t := ReqArgs {
  ra_verify : bool;
  ra_auth : option string
}.

(** What [verify_compact] does when called. *)
Inductive verify_outcome :=
| Verified
| VerifyAssertion                 (* raises AssertionError *)
| VerifyRaises (e : exn).         (* raises something else *)

Abbreviation keyjar := (gmap string (list string)).

Class Collaborators := {
  (* JWT(keyjar, iss, lifetime).pack(payload, owner, **kwargs) with sign_alg *)
  jwt_pack : keyjar → string → Z → string → string → doc → doc → exn + string;
  (* cryptojwt.jws.factory, then as_unicode(_jw.jwt.part[1]) *)
  jws_factory : string → option string;
  json_loads : string → exn + doc;
  (* _jw.verify_compact(token, keys) *)
  verify_compact : string → list string → verify_outcome;
  (* requests.post / put / get *)
  http_request : http_method → string → option doc → req_args_t → exn + response;
  (* os.listdir, os.path.isdir *)
  os_listdir : string → exn + list string;
  os_isdir : string → bool;
  (* the entries a FileSystem over a directory holds *)
  FileSystem : string → gmap string string
}.

(** Modelled from the spec: the package constants [CONTEXTS] and [MIN_SET]
    of [fedoicmsg/__init__.py], a fixed closed set of contexts and the store
    that maps each of them to the empty mapping; the three names are those
    of the literal the Signer compares its store with. *)
Definition CONTEXTS : list string := ["register"; "discovery"; "response"].
Definition MIN_SET : gmap string (gmap string string) :=
  list_to_map ((λ k, (k, ∅)) <$> CONTEXTS).

(** ** SigningService and its two implementations *)

Record InternalSigningService := Internal {
  i_iss : string;
  i_signing_keys : keyjar;
  i_add_ons : doc;
  i_alg : string;
  i_lifetime : Z
}.

Record WebSigningServiceClient := Web {
  c_iss : string;
  c_url : string;
  c_keyjar : keyjar;
  c_add_ons : doc;
  c_alg : string;
  c_token : string;
  c_token_type : string;
  c_verify_ssl_cert : bool
}.

Module InternalSigningService.

(** The payload [create] hands to [pack]: its own copy of the request,
    updated with the add-ons. *)
Definition metadata (self : InternalSigningService) (req : doc) : doc :=
  let _metadata := req in
  if bool_decide (i_add_ons self ≠ ∅)
  then dict_update _metadata (i_add_ons self)
  else _metadata.

Definition owner (self : InternalSigningService) : string :=
  if bool_decide (is_Some (i_signing_keys self !! i_iss self))
  then i_iss self else "".

Definition create `{Collaborators}
    (self : InternalSigningService) (req kwargs : doc)
    : exn + gmap string string :=
  match jwt_pack (i_signing_keys self) (i_iss self) (i_lifetime self)
                 (i_alg self) (owner self) (metadata self req) kwargs with
  | inr sms => inr {["sms" := sms]}
  | inl e => inl e
  end.

Definition name (self : InternalSigningService) : string := i_iss self.

End InternalSigningService.

Module WebSigningServiceClient.

Definition get_verify_key (kj : keyjar) (owner : string) : list string :=
  default [] (kj !! owner).

Definition format_status (code : Z) (body : string) : string :=
  pretty code ++ ": " ++ body.

Definition parse_response `{Collaborators}
    (self : WebSigningServiceClient) (r : response) : M (gmap string string) :=
  if bool_decide (200 ≤ status_code r < 300)%Z then
    part1 ← match jws_factory (text r) with
            | Some p => mret p
            | None => raise (AttributeError "jwt")
            end;
    body ← lift (json_loads part1);
    iss ← lift (getitem body "iss");
    (if value_eq_str iss (c_iss self) then mret tt
     else raise AssertionError);;
    let keys := get_verify_key (c_keyjar self) (c_iss self) in
    record_verify_call (text r);;
    match verify_compact (text r) keys with
    | Verified => mret tt
    | VerifyAssertion => raise (JWSException "JWS signature verification error")
    | VerifyRaises e => raise e
    end;;
    location ← lift (getitem (headers r) "Location");
    mret {["sms" := text r; "loc" := location]}
  else
    raise (SigningServiceError (format_status (status_code r) (text r))).

Definition req_args (self : WebSigningServiceClient) : req_args_t :=
  if bool_decide (c_token self ≠ "")
  then ReqArgs (c_verify_ssl_cert self)
               (Some (c_token_type self ++ " " ++ c_token self))
  else ReqArgs (c_verify_ssl_cert self) None.

Definition create `{Collaborators}
    (self : WebSigningServiceClient) (req : doc) : M (gmap string string) :=
  response ← lift (http_request POST (c_url self) (Some req) (req_args self));
  parse_response self response.

Definition name (self : WebSigningServiceClient) : string := c_url self.

Definition update_metadata_statement `{Collaborators}
    (self : WebSigningServiceClient) (location : string) (req : doc)
    : M (gmap string string) :=
  response ← lift (http_request PUT location (Some req) (req_args self));
  parse_response self response.

Definition update_signature `{Collaborators}
    (self : WebSigningServiceClient) (location : string)
    : M (gmap string string) :=
  response ← lift (http_request GET location None (req_args self));
  parse_response self response.

End WebSigningServiceClient.

(** ** The Signer *)

Inductive SigningService :=
| SInternal (s : InternalSigningService)
| SWeb (c : WebSigningServiceClient).

Module SigningService.

Definition iss (ss : SigningService) : string :=
  match ss with
  | SInternal s => i_iss s
  | SWeb c => c_iss c
  end.

(** [ss.create(req)]; the call is recorded in the world before the
    implementation runs. *)
Definition create `{Collaborators}
    (ss : SigningService) (req : doc) : M (gmap string string) :=
  record_sign_call req;;
  match ss with
  | SInternal s => lift (InternalSigningService.create s req ∅)
  | SWeb c => WebSigningServiceClient.create c req
  end.

End SigningService.

(** Modelled from the spec: the per-context statement store, an instance of
    the class [FileSystem] of [fedoicmsg/file_system.py], is a mapping from
    the id of a federation operator to the stored string (a signed
    statement or a reference), with [keys], item lookup that raises
    [KeyError] on a miss, and comparison with [{}] as a mapping. *)
Record Signer := MkSigner {
  metadata_statements : gmap string (gmap string string);
  signing_service : option SigningService;
  def_context : string
}.

(** What [create_signed_metadata_statement] returns: [None], one signed
    statement, or a dictionary of signed statements. *)
Inductive sms_result :=
| RNone
| RToken (sms : string)
| RMapping (m : gmap string string).

Definition dquote : string :=
  String (Ascii.Ascii false true false false false true false false) "".

Module Signer.

(** [try: m except AttributeError: h] *)
Definition except_AttributeError {A} (m : M A) (h : M A) : M A := λ w,
  match m w with
  | (inl (AttributeError _), w') => h w'
  | r => r
  end.

(** [self.signing_service.<attr>]: [None] has no attributes. *)
Definition service (self : Signer) : M SigningService :=
  match signing_service self with
  | Some ss => mret ss
  | None => raise (AttributeError "NoneType")
  end.

Inductive ms_dir_t :=
| MsDirDict (d : list (string * string))
| MsDirPath (p : string)
| MsDirNone.

Fixpoint init_dict `{Collaborators} (items : list (string * string))
    (ms : gmap string (gmap string string))
    : exn + gmap string (gmap string string) :=
  match items with
  | [] => inr ms
  | (key, _dir) :: items' =>
      if bool_decide (key ∈ CONTEXTS)
      then init_dict items' (<[key := FileSystem _dir]> ms)
      else inl (ValueError (key ++ " not expected operation"))
  end.

Fixpoint init_listing `{Collaborators} (ms_dir : string) (items : list string)
    (ms : gmap string (gmap string string))
    : exn + gmap string (gmap string string) :=
  match items with
  | [] => inr ms
  | item :: items' =>
      if bool_decide (item ∈ CONTEXTS) then
        let _dir := ms_dir ++ "/" ++ item in
        if os_isdir _dir
        then init_listing ms_dir items' (<[item := FileSystem _dir]> ms)
        else init_listing ms_dir items' ms
      else inl (ValueError (item ++ " not expected operation"))
  end.

(** [Signer.__init__] *)
Definition init `{Collaborators} (signing_service : option SigningService)
    (ms_dir : ms_dir_t) (def_context : string) : exn + Signer :=
  let ms :=
    match ms_dir with
    | MsDirDict d => init_dict d ∅
    | MsDirPath p =>
        if bool_decide (p ≠ "") then
          match os_listdir p with
          | inr items => init_listing p items ∅
          | inl e => inl e
          end
        else inr MIN_SET
    | MsDirNone => inr MIN_SET
    end in
  match ms with
  | inr ms => inr (MkSigner ms signing_service def_context)
  | inl e => inl e
  end.

(** [list(fs.keys())] *)
Definition keys (fs : gmap string string) : list string :=
  (map_to_list fs).*1.

Definition items (self : Signer) : gmap string (list string) :=
  keys <$> metadata_statements self.

Definition metadata_statement_fos (self : Signer) (context : string)
    : list string :=
  let context := if bool_decide (context = "") then def_context self
                 else context in
  match metadata_statements self !! context with
  | Some fs => keys fs
  | None => []
  end.

(** The literal the store is compared with. *)
Definition no_superior : gmap string (gmap string string) :=
  {["register" := ∅; "discovery" := ∅; "response" := ∅]}.

(** [self.signing_service.create(req)] *)
Definition signing_service_create `{Collaborators} (self : Signer)
    : M (gmap string string) :=
  ss ← service self;
  req ← get_req;
  SigningService.create ss req.

(** [_res = self.signing_service.create(req)]
    [return {self.signing_service.iss: _res['sms']}] *)
Definition sign_as_self `{Collaborators} (self : Signer) : M sms_result :=
  _res ← signing_service_create self;
  ss ← service self;
  sms ← lift (getitem _res "sms");
  mret (RMapping {[SigningService.iss ss := sms]}).

(** [self.signing_service.create(req)['sms']] *)
Definition sign `{Collaborators} (self : Signer) : M string :=
  _res ← signing_service_create self;
  lift (getitem _res "sms").

(** [req[attr] = v] and [del req[attr]] *)
Definition setitem_req (attr : string) (v : value) : M unit :=
  req ← get_req; put_req (<[attr := v]> req).

Definition delitem_req (attr : string) : M unit :=
  req ← get_req;
  match req !! attr with
  | Some _ => put_req (delete attr req)
  | None => raise (KeyError attr)
  end.

(** [req[attr][f] = val] *)
Definition setitem_nested (attr f val : string) : M unit :=
  req ← get_req;
  d ← lift (getitem req attr);
  match d with
  | VDict m => put_req (<[attr := VDict (<[f := VStr val]> m)]> req)
  | _ => raise (TypeError "object does not support item assignment")
  end.

(** [try: req[attr][f] = val except KeyError: req[attr] = {f: val}] *)
Definition add_entry (attr f val : string) : M unit :=
  except_KeyError (setitem_nested attr f val)
                  (setitem_req attr (VDict {[f := VStr val]})).

Fixpoint single_loop (cms : gmap string string) (fos : list string)
    : M unit :=
  match fos with
  | [] => mret tt
  | f :: fos' =>
      match cms !! f with
      | None => single_loop cms fos'
      | Some val =>
          (if String.prefix "http" val
           then add_entry "metadata_statement_uris" f val
           else add_entry "metadata_statements" f val);;
          single_loop cms fos'
      end
  end.

Fixpoint fanout_loop `{Collaborators} (self : Signer)
    (cms : gmap string string) (fos : list string)
    (_sms : gmap string string) : M (gmap string string) :=
  match fos with
  | [] => mret _sms
  | f :: fos' =>
      match cms !! f with
      | None => fanout_loop self cms fos' _sms
      | Some val =>
          if String.prefix "http" val then
            setitem_req "metadata_statement_uris" (VDict {[f := VStr val]});;
            sms ← sign self;
            delitem_req "metadata_statement_uris";;
            fanout_loop self cms fos' (<[f := sms]> _sms)
          else
            setitem_req "metadata_statements" (VDict {[f := VStr val]});;
            sms ← sign self;
            delitem_req "metadata_statements";;
            fanout_loop self cms fos' (<[f := sms]> _sms)
      end
  end.

(** [not _sms] *)
Definition falsy (r : sms_result) : bool :=
  match r with
  | RNone => true
  | RToken sms => bool_decide (sms = "")
  | RMapping m => bool_decide (m = ∅)
  end.

Definition resolve (self : Signer) (context : string) : string :=
  if bool_decide (context = "") then def_context self else context.

Definition create_signed_metadata_statement `{Collaborators}
    (self : Signer) (context : string) (fos : option (list string))
    (single : bool) : M sms_result :=
  let context := resolve self context in
  if bool_decide (metadata_statements self ≠ ∅) then
    match metadata_statements self !! context with
    | None =>
        if bool_decide (metadata_statements self = no_superior) then
          sign_as_self self
        else
          except_AttributeError
            (ss ← service self;
             logger_error (LogSignerItems (SigningService.iss ss)
                                          (items self)))
            (raise (SigningServiceError
                      "This signer can not sign for that context"));;
          logger_error (LogNoStatements context);;
          raise (KeyError context)
    | Some cms =>
        if bool_decide (cms = ∅) then
          sign_as_self self
        else
          let fos := match fos with
                     | None => keys cms
                     | Some l => l
                     end in
          _sms ← (if single then
                    single_loop cms fos;;
                    sms ← sign self;
                    mret (RToken sms)
                  else
                    m ← fanout_loop self cms fos ∅;
                    mret (RMapping m));
          if bool_decide (fos ≠ []) && falsy _sms
          then raise (KeyError "No metadata statements matched")
          else mret _sms
    end
  else mret RNone.

Fixpoint gather_loop (cms : gmap string string) (fos : list string)
    (_res : gmap string (gmap string string))
    : gmap string (gmap string string) :=
  match fos with
  | [] => _res
  | f :: fos' =>
      match cms !! f with
      | None => gather_loop cms fos' _res
      | Some val =>
          let attr := if String.prefix "http" val
                      then "metadata_statement_uris"
                      else "metadata_statements" in
          match _res !! attr with
          | Some m => gather_loop cms fos' (<[attr := <[f := val]> m]> _res)
          | None => gather_loop cms fos' (<[attr := <[f := val]> ∅]> _res)
          end
      end
  end.

Definition gather_metadata_statements
    (self : Signer) (context : string) (fos : option (list string))
    : M (gmap string (gmap string string)) :=
  let context := resolve self context in
  let _res : gmap string (gmap string string) := ∅ in
  if bool_decide (metadata_statements self ≠ ∅) then
    match metadata_statements self !! context with
    | None =>
        if bool_decide (metadata_statements self = no_superior) then
          mret _res
        else
          logger_error (LogNoStatements context);;
          raise (ValueError ("Wrong context " ++ dquote ++ context ++ dquote))
    | Some cms =>
        if bool_decide (cms ≠ ∅) then
          let fos := match fos with
                     | None => keys cms
                     | Some l => l
                     end in
          mret (gather_loop cms fos _res)
        else mret _res
    end
  else mret _res.

End Signer.

(** ** Notions the properties are stated with *)

(** The reserved claim a stored value is filed under. *)
Definition attr_of (val : string) : string :=
  if String.prefix "http" val
  then "metadata_statement_uris"
  else "metadata_statements".

(** [res[attr][f]], where it exists, in what [gather_metadata_statements]
    returns. *)
Definition entry2 (res : gmap string (gmap string string))
    (attr f : string) : option string :=
  res !! attr ≫= (.!! f).

(** [d[attr][f]], where it exists, in a document. *)
Definition entry (d : doc) (attr f : string) : option value :=
  match d !! attr with
  | Some (VDict m) => m !! f
  | _ => None
  end.

(** The reserved claims of a document are dictionaries where present. *)
Definition reserved_ok (d : doc) : Prop :=
  ∀ attr v,
    attr = "metadata_statement_uris" ∨ attr = "metadata_statements" →
    d !! attr = Some v → ∃ m, v = VDict m.


(** The world with the request object replaced. *)
Definition set_req (w : world) (d : doc) : world :=
  World d (w_sign_calls w) (w_verify_calls w) (w_log w).

(** The dictionary a reserved claim holds, empty when the claim is absent. *)
Definition reserved_dict (d : doc) (attr : string) : gmap string value :=
  match d !! attr with
  | Some (VDict m) => m
  | _ => ∅
  end.

(** [d'] is [d] with the stored values of the listed federation operators
    merged in: claims other than the two reserved ones are those of [d]; a
    reserved claim no listed operator contributes to is that of [d]; and
    under a reserved claim, an operator that is listed and has a stored
    value belonging there maps to that value, every other key to what [d]
    had. *)
Definition merged (cms : gmap string string) (fos : list string)
    (d d' : doc) : Prop :=
  (∀ k, k ≠ "metadata_statement_uris" → k ≠ "metadata_statements" →
        d' !! k = d !! k) ∧
  (∀ attr,
     (¬ (∃ f val, f ∈ fos ∧ cms !! f = Some val ∧ attr_of val = attr)) →
     d' !! attr = d !! attr) ∧
  (∀ attr f,
     entry d' attr f =
       match cms !! f with
       | Some val =>
           if bool_decide (f ∈ fos ∧ attr = attr_of val)
           then Some (VStr val) else entry d attr f
       | None => entry d attr f
       end).

(** The documents the signing service sees in fan-out mode when the
    request is [d] between iterations: one per listed operator with a
    stored value, holding that operator's entry alone under its claim. *)
Definition fanout_docs (cms : gmap string string) (fos : list string)
    (d : doc) : list doc :=
  omap (λ f, (λ val, <[attr_of val := VDict {[f := VStr val]}]> d)
               <$> cms !! f) fos.

(** The signing service of the Signer answers every request with a signed
    statement. *)
Definition always_signs `{Collaborators} (self : Signer) : Prop :=
  ∀ w, ∃ sms, (Signer.sign self w).1 = inr sms.


(** ** A test double for the collaborators

    Tokens are readable strings: a signed statement lists the issuer and the
    claim names of its payload; the payload of a received token is a document
    whose issuer is the token's text. Used to run the model on concrete
    inputs. *)

Module Fake.

#[export] Instance collaborators : Collaborators := {|
  jwt_pack := λ _ iss _ _ _ payload _,
    inr ("eyJ." ++ iss ++ "." ++ String.concat "," (map_to_list payload).*1);
  jws_factory := λ t, Some t;
  json_loads := λ p, inr {["iss" := VStr p]};
  verify_compact := λ _ _, Verified;
  http_request := λ _ url _ _,
    inr (Response 200 "https://signer.example.org" {["Location" := url]});
  os_listdir := λ _, inr [];
  os_isdir := λ _, false;
  FileSystem := λ _, ∅
|}.

Definition w0 : world := World ∅ [] [] [].

Definition client : WebSigningServiceClient :=
  Web "https://signer.example.org" "https://signer.example.org/sign"
      ∅ ∅ "RS256" "" "Bearer" true.

Definition local : InternalSigningService :=
  Internal "https://op.example.org" ∅ ∅ "RS256" 3600.

Definition fo : string := "https://fo.example.org".
Definition fo_uri : string := "https://fo.example.com".

(** A non-root signer with one inline statement and one reference
    stored for the register context. *)
Definition register_store : gmap string string :=
  {[fo := "eyJ.signed"; fo_uri := "http://x/stmtA"]}.

Definition store : gmap string (gmap string string) :=
  {["register" := register_store]}.

Definition signer : Signer :=
  MkSigner store (Some (SInternal local)) "register".

Definition root : Signer :=
  MkSigner MIN_SET (Some (SInternal local)) "register".

(** A signer whose store mapping is the empty dictionary. *)
Definition unconfigured : Signer :=
  MkSigner ∅ (Some (SInternal local)) "register".

(** A local service that adds a scope claim. *)
Definition local_add_ons : InternalSigningService :=
  Internal "https://op.example.org" ∅ {["scope" := VStr "openid"]}
           "RS256" 3600.

(** A request that carries neither reserved claim. *)
Definition req_rp : doc := {["client_name" := VStr "rp"]}.
Definition w_rp : world := World req_rp [] [] [].

(** A request that already carries an inline statement. *)
Definition req_pre : doc :=
  {["client_name" := VStr "rp";
    "metadata_statements" :=
      VDict {["https://swamid.example.org" := VStr "eyJ.caller"]}]}.
Definition w_pre : world := World req_pre [] [] [].

(** A second double: the signing key is missing, the remote service
    answers 404, the verifier refuses every signature, only texts that
    begin with [eyJ] are tokens, the token [eyJ.anonymous] has no issuer
    claim, and the directory [/ms] holds a subdirectory [register] and a
    plain file [discovery]. *)
Definition strict : Collaborators := {|
  jwt_pack := λ _ _ _ _ _ _ _, inl (CollaboratorError "no signing key");
  jws_factory := λ t, if String.prefix "eyJ" t then Some t else None;
  json_loads := λ p,
    if bool_decide (p = "eyJ.anonymous") then inr ∅
    else inr {["iss" := VStr "https://signer.example.org"]};
  verify_compact := λ _ _, VerifyAssertion;
  http_request := λ _ _ _ _, inr (Response 404 "not found" ∅);
  os_listdir := λ _, inr ["register"; "discovery"];
  os_isdir := λ d, bool_decide (d = "/ms/register");
  FileSystem := λ d,
    if bool_decide (d = "/ms/register") then register_store else ∅
|}.

(** A response the first double accepts. *)
Definition accepted : response :=
  Response 200 "https://signer.example.org"
           {["Location" := "https://signer.example.org/ms/1"]}.

Definition web_root : Signer :=
  MkSigner MIN_SET (Some (SWeb client)) "register".

(** A root Signer without a signing service. *)
Definition gather_only : Signer := MkSigner MIN_SET None "register".


End Fake.

(** * Properties *)

Ltac munfold :=
  unfold mbind, mret, M_bind, M_ret, raise, lift, get_req, put_req,
    record_sign_call, record_verify_call, logger_error, except_KeyError,
    Signer.except_AttributeError in *.

(** ** The web client's response check *)

Section ParseResponse.
Context `{Collaborators}.
Import WebSigningServiceClient.

(** C7. A response whose status is outside [200,300) makes
    [parse_response] raise a [SigningServiceError] whose message is the
    status code in decimal, a colon and a space, and the response body;
    nothing is returned and the world is left as it was. *)
Theorem parse_response_bad_status
    (self : WebSigningServiceClient) (r : response) (w : world) :
  ¬ (200 ≤ status_code r < 300)%Z →
  parse_response self r w =
    (inl (SigningServiceError (pretty (status_code r) ++ ": " ++ text r)), w).
Proof.
  intros Hout. unfold parse_response.
  rewrite bool_decide_eq_false_2 by exact Hout. reflexivity.
Qed.

(** C1 (amended). A response with status in [200,300) whose payload
    carries an issuer different from the client's makes [parse_response]
    raise an [AssertionError]; the world, and with it the record of
    [verify_compact] calls, is left as it was. *)
Theorem parse_response_issuer_mismatch
    (self : WebSigningServiceClient) (r : response) (w : world)
    (part1 : string) (body : doc) (iss : value) :
  (200 ≤ status_code r < 300)%Z →
  jws_factory (text r) = Some part1 →
  json_loads part1 = inr body →
  body !! "iss" = Some iss →
  value_eq_str iss (c_iss self) = false →
  parse_response self r w = (inl AssertionError, w).
Proof.
  intros Hin Hf Hj Hb Hne. unfold parse_response.
  rewrite bool_decide_eq_true_2 by exact Hin.
  munfold. rewrite Hf, Hj. unfold getitem. rewrite Hb, Hne. reflexivity.
Qed.

(** When the issuer matches, the signature check runs: the token is
    handed to [verify_compact] exactly once. *)
Lemma parse_response_issuer_match_verifies
    (self : WebSigningServiceClient) (r : response) (w : world)
    (part1 : string) (body : doc) (iss : value) :
  (200 ≤ status_code r < 300)%Z →
  jws_factory (text r) = Some part1 →
  json_loads part1 = inr body →
  body !! "iss" = Some iss →
  value_eq_str iss (c_iss self) = true →
  w_verify_calls (parse_response self r w).2
    = (w_verify_calls w ++ [text r])%list.
Proof.
  intros Hin Hf Hj Hb Heq. unfold parse_response.
  rewrite bool_decide_eq_true_2 by exact Hin.
  munfold. rewrite Hf, Hj. unfold getitem. rewrite Hb, Heq. simpl.
  destruct (verify_compact _ _); simpl; try reflexivity.
  destruct (headers r !! "Location"); reflexivity.
Qed.

(** [parse_response] touches nothing but the record of verify calls. *)
Lemma parse_response_frame
    (self : WebSigningServiceClient) (r : response) (w : world) :
  let w' := (parse_response self r w).2 in
  w_req w' = w_req w ∧ w_sign_calls w' = w_sign_calls w ∧ w_log w' = w_log w.
Proof.
  unfold parse_response. case_bool_decide; [|done].
  munfold. destruct (jws_factory _); [|done].
  destruct (json_loads _); [done|]. simpl.
  destruct (getitem _ _); [done|]. simpl.
  destruct (value_eq_str _ _); [|done]. simpl.
  destruct (verify_compact _ _); simpl; try done.
  destruct (getitem _ _); done.
Qed.

End ParseResponse.

(** ** The local signing service *)

Section InternalCreate.
Context `{Collaborators}.
Import InternalSigningService.

Lemma metadata_lookup (self : InternalSigningService) (req : doc) (k : string) :
  metadata self req !! k =
    match i_add_ons self !! k with
    | Some v => Some v
    | None => req !! k
    end.
Proof.
  unfold metadata, dict_update. case_bool_decide as Hne.
  - rewrite lookup_union.
    destruct (i_add_ons self !! k), (req !! k); reflexivity.
  - rewrite Hne, lookup_empty. reflexivity.
Qed.

(** C3 (amended). The payload the local service signs is its own copy of
    the request updated with the add-ons: a claim named by an add-on
    carries the add-on's value, whatever the request held under that
    name, and every other claim is the request's. *)
Theorem create_add_ons_override
    (self : InternalSigningService) (req kwargs : doc) :
  ∃ payload : doc,
    (∀ k, payload !! k = match i_add_ons self !! k with
                         | Some v => Some v
                         | None => req !! k
                         end) ∧
    create self req kwargs =
      match jwt_pack (i_signing_keys self) (i_iss self) (i_lifetime self)
                     (i_alg self) (owner self) payload kwargs with
      | inr sms => inr {["sms" := sms]}
      | inl e => inl e
      end.
Proof.
  exists (metadata self req). split.
  - intros k. apply metadata_lookup.
  - reflexivity.
Qed.

End InternalCreate.

(** ** The Signer: frame properties of a signing call *)

Section SignerBasics.
Context `{Collaborators}.
Import Signer.

(** A call of the signing service is recorded once, with the document it
    was given; the request object and the log are left alone. *)
Lemma create_frame (ss : SigningService) (req : doc) (w : world) :
  let w' := (SigningService.create ss req w).2 in
  w_req w' = w_req w ∧
  w_sign_calls w' = (w_sign_calls w ++ [req])%list ∧
  w_log w' = w_log w.
Proof.
  unfold SigningService.create. munfold. simpl. destruct ss as [s|c].
  - done.
  - unfold WebSigningServiceClient.create. munfold.
    destruct (http_request _ _ _ _) as [e|r]; [done|].
    match goal with
    | |- context [WebSigningServiceClient.parse_response c r ?w0] =>
        pose proof (parse_response_frame c r w0) as Hf
    end.
    simpl in Hf. exact Hf.
Qed.

Lemma no_superior_nonempty : no_superior ≠ ∅.
Proof.
  intros Heq. pose proof (lookup_empty (M := gmap string)
    (A := gmap string string) "register") as He.
  rewrite <- Heq in He. discriminate He.
Qed.

Lemma no_superior_lookup (k : string) (cms : gmap string string) :
  no_superior !! k = Some cms → cms = ∅.
Proof.
  unfold no_superior. intros Hk.
  rewrite !lookup_insert_Some, lookup_singleton_Some in Hk.
  destruct Hk as [[_ <-]|[_ [[_ <-]|[_ [_ <-]]]]]; reflexivity.
Qed.

(** A root Signer, and a Signer whose store for the context is empty,
    take the path that signs the request as it is. *)
Lemma root_is_sign_as_self
    (self : Signer) (context : string) (fos : option (list string))
    (single : bool) :
  metadata_statements self = no_superior ∨
  metadata_statements self !! resolve self context = Some ∅ →
  create_signed_metadata_statement self context fos single =
    sign_as_self self.
Proof.
  intros Hroot. unfold create_signed_metadata_statement.
  assert (metadata_statements self ≠ ∅) as Hne.
  { destruct Hroot as [->|Hl]; [apply no_superior_nonempty|].
    intros Heq. rewrite Heq, lookup_empty in Hl. discriminate Hl. }
  rewrite bool_decide_eq_true_2 by exact Hne.
  destruct Hroot as [Hms|Hl].
  - destruct (metadata_statements self !! resolve self context) as [cms|]
      eqn:Hl.
    + rewrite Hms in Hl. apply no_superior_lookup in Hl as ->.
      by rewrite bool_decide_eq_true_2.
    + by rewrite bool_decide_eq_true_2.
  - rewrite Hl. by rewrite bool_decide_eq_true_2.
Qed.

(** C4. A root Signer (store equal to the three contexts each mapped to
    the empty mapping), or one whose store for the resolved context is
    present and empty, with a signing service whose call on the request
    succeeds with a signed statement, returns the one-entry mapping from
    the service's issuer to that statement; the service was called
    exactly once, on the request as the caller gave it, and the request
    is unchanged. *)
Theorem root_signs_as_self
    (self : Signer) (context : string) (fos : option (list string))
    (single : bool) (w w' : world) (ss : SigningService)
    (_res : gmap string string) (sms : string) :
  metadata_statements self = no_superior ∨
  metadata_statements self !! resolve self context = Some ∅ →
  signing_service self = Some ss →
  SigningService.create ss (w_req w) w = (inr _res, w') →
  _res !! "sms" = Some sms →
  create_signed_metadata_statement self context fos single w =
    (inr (RMapping {[SigningService.iss ss := sms]}), w') ∧
  w_req w' = w_req w ∧
  w_sign_calls w' = (w_sign_calls w ++ [w_req w])%list.
Proof.
  intros Hroot Hss Hcreate Hsms.
  rewrite root_is_sign_as_self by exact Hroot.
  pose proof (create_frame ss (w_req w) w) as Hf.
  rewrite Hcreate in Hf. simpl in Hf. destruct Hf as (Hreq & Hcalls & _).
  split; [|done].
  unfold sign_as_self, signing_service_create, service. rewrite Hss.
  munfold. rewrite Hcreate. unfold getitem. rewrite Hsms. reflexivity.
Qed.

(** C10. A Signer whose store mapping is the empty dictionary returns
    [None] for every request, context, list of federation operators and
    mode; nothing is raised, the signing service is not called and the
    world is left as it was. *)
Theorem empty_store_returns_None
    (self : Signer) (context : string) (fos : option (list string))
    (single : bool) (w : world) :
  metadata_statements self = ∅ →
  create_signed_metadata_statement self context fos single w =
    (inr RNone, w).
Proof.
  intros Hempty. unfold create_signed_metadata_statement.
  rewrite bool_decide_eq_false_2; [reflexivity|].
  intros Hne. exact (Hne Hempty).
Qed.

(** A store mapping built from an [ms_dir] dictionary without entries,
    or from a directory whose entries are context names but not
    directories, is the empty dictionary. *)
Lemma init_listing_no_dirs (ms_dir : string) (items : list string)
    (ms : gmap string (gmap string string)) :
  Forall (λ item, item ∈ CONTEXTS ∧ os_isdir (ms_dir ++ "/" ++ item) = false)
         items →
  init_listing ms_dir items ms = inr ms.
Proof.
  induction 1 as [|item items [Hin Hdir] _ IH]; simpl; [reflexivity|].
  rewrite bool_decide_eq_true_2 by exact Hin. rewrite Hdir. exact IH.
Qed.

Lemma init_empty_dict (ss : option SigningService) (def : string) :
  init ss (MsDirDict []) def = inr (MkSigner ∅ ss def).
Proof. reflexivity. Qed.

Lemma init_no_subdirectories (ss : option SigningService)
    (p def : string) (items : list string) :
  p ≠ "" →
  os_listdir p = inr items →
  Forall (λ item, item ∈ CONTEXTS ∧ os_isdir (p ++ "/" ++ item) = false)
         items →
  init ss (MsDirPath p) def = inr (MkSigner ∅ ss def).
Proof.
  intros Hp Hls Hitems. unfold init.
  rewrite bool_decide_eq_true_2 by exact Hp.
  rewrite Hls, init_listing_no_dirs by exact Hitems. reflexivity.
Qed.

(** Without [ms_dir] the store is [MIN_SET], which is the literal a root
    Signer is recognised by. *)
Lemma MIN_SET_no_superior : MIN_SET = no_superior.
Proof. apply map_eq. intros k. unfold MIN_SET, no_superior. simpl.
  reflexivity. Qed.

(** C8 (amended). A Signer whose store mapping is not empty, is not the
    root literal, and has no entry for the resolved context fails. With a
    signing service it logs the service's issuer with the contexts it has
    and their keys, logs the context asked for, and raises the [KeyError]
    of the failed lookup; without one it raises [SigningServiceError]
    saying it can not sign for that context, and logs nothing. The
    signing service is not called and the request is unchanged. *)
Theorem unknown_context_fails
    (self : Signer) (context : string) (fos : option (list string))
    (single : bool) (w : world) :
  metadata_statements self ≠ ∅ →
  metadata_statements self ≠ no_superior →
  metadata_statements self !! resolve self context = None →
  create_signed_metadata_statement self context fos single w =
    match signing_service self with
    | Some ss =>
        (inl (KeyError (resolve self context)),
         World (w_req w) (w_sign_calls w) (w_verify_calls w)
               (w_log w ++ [LogSignerItems (SigningService.iss ss)
                                           (keys <$> metadata_statements self);
                            LogNoStatements (resolve self context)]))
    | None =>
        (inl (SigningServiceError
                "This signer can not sign for that context"), w)
    end.
Proof.
  intros Hne Hnr Hl. unfold create_signed_metadata_statement.
  rewrite bool_decide_eq_true_2 by exact Hne. rewrite Hl.
  rewrite bool_decide_eq_false_2 by exact Hnr.
  unfold service, items. munfold.
  destruct (signing_service self) as [ss|]; simpl; [|reflexivity].
  by rewrite <- app_assoc.
Qed.

End SignerBasics.

(** ** Gathering without signing *)

Section Gather.
Import Signer.

Lemma entry2_insert (res : gmap string (gmap string string))
    (a g s attr f : string) (m : gmap string string) :
  (∀ h, m !! h = entry2 res a h) →
  entry2 (<[a := <[g := s]> m]> res) attr f =
    if bool_decide (attr = a ∧ f = g) then Some s else entry2 res attr f.
Proof.
  intros Hm. unfold entry2 in *.
  destruct (decide (attr = a)) as [->|Hne].
  - rewrite lookup_insert_eq. simpl.
    destruct (decide (f = g)) as [->|Hfg].
    + rewrite lookup_insert_eq. by rewrite bool_decide_eq_true_2.
    + rewrite lookup_insert_ne by done.
      rewrite bool_decide_eq_false_2 by (intros [_ ?]; done). apply Hm.
  - rewrite lookup_insert_ne by done.
    by rewrite bool_decide_eq_false_2 by (intros [? _]; done).
Qed.

(** What the loop leaves at [res[attr][f]]: the stored value of [f] when
    [f] is in the list, has a stored value and that value belongs under
    [attr]; what was there before otherwise. *)
Lemma gather_loop_entry (cms : gmap string string) (fos : list string)
    (acc : gmap string (gmap string string)) (attr f : string) :
  entry2 (gather_loop cms fos acc) attr f =
    match cms !! f with
    | Some val =>
        if bool_decide (f ∈ fos ∧ attr = attr_of val) then Some val
        else entry2 acc attr f
    | None => entry2 acc attr f
    end.
Proof.
  revert acc. induction fos as [|g fos IH]; intros acc; cbn [gather_loop].
  - destruct (cms !! f); [|done].
    rewrite bool_decide_eq_false_2; [done|]. intros [Hin _].
    by apply elem_of_nil in Hin.
  - destruct (cms !! g) as [s|] eqn:Hg.
    + fold (attr_of s).
      assert (∀ m, (∀ h, m !! h = entry2 acc (attr_of s) h) →
        entry2 (gather_loop cms fos (<[attr_of s := <[g := s]> m]> acc))
               attr f =
        match cms !! f with
        | Some val =>
            if bool_decide (f ∈ g :: fos ∧ attr = attr_of val) then Some val
            else entry2 acc attr f
        | None => entry2 acc attr f
        end) as Hstep.
      { intros m Hm. rewrite IH, (entry2_insert _ _ _ _ _ _ _ Hm).
        destruct (cms !! f) as [val|] eqn:Hf.
        - repeat case_bool_decide; try done;
            try (exfalso; set_solver).
          destruct_and!. congruence.
        - case_bool_decide as Hc; [|done].
          destruct Hc as [_ ->]. congruence. }
      destruct (acc !! attr_of s) as [m|] eqn:Ha.
      * apply Hstep. intros h. unfold entry2. by rewrite Ha.
      * apply Hstep. intros h. unfold entry2. by rewrite Ha, lookup_empty.
    + rewrite IH. destruct (cms !! f) as [val|] eqn:Hf; [|done].
      assert (f ≠ g) by congruence.
      repeat case_bool_decide; try done; exfalso; set_solver.
Qed.

(** C9. [gather_metadata_statements] never calls the signing service:
    the record of signing calls, the request and the record of signature
    checks are what they were. Its result is the empty dictionary for a
    Signer with an empty store mapping, for a root Signer and for an
    empty store at the context; a [ValueError] naming the context for a
    non-root Signer without a store for it; and otherwise the
    classification of the stored values of the listed federation
    operators, references under [metadata_statement_uris] and the rest
    under [metadata_statements]. *)
Theorem gather_never_signs
    (self : Signer) (context : string) (fos : option (list string))
    (w : world) :
  let ctx := resolve self context in
  let ms := metadata_statements self in
  let r := (gather_metadata_statements self context fos w).1 in
  let w' := (gather_metadata_statements self context fos w).2 in
  (w_sign_calls w' = w_sign_calls w ∧ w_req w' = w_req w ∧
   w_verify_calls w' = w_verify_calls w) ∧
  (ms = ∅ ∨ ms = no_superior ∨ ms !! ctx = Some ∅ →
   r = inr ∅ ∧ w' = w) ∧
  (ms ≠ ∅ → ms ≠ no_superior → ms !! ctx = None →
   r = inl (ValueError ("Wrong context " ++ dquote ++ ctx ++ dquote))) ∧
  (∀ cms, ms !! ctx = Some cms →
     ∃ res, r = inr res ∧ w' = w ∧
       ∀ attr f, entry2 res attr f =
         match cms !! f with
         | Some val =>
             if bool_decide (f ∈ default (keys cms) fos ∧ attr = attr_of val)
             then Some val else None
         | None => None
         end).
Proof.
  intros ctx ms r w'. subst r w'.
  unfold gather_metadata_statements. fold ctx. fold ms.
  destruct (decide (ms = ∅)) as [Hempty|Hne].
  { rewrite bool_decide_eq_false_2 by (intros Hc; exact (Hc Hempty)).
    split; [done|]. split; [done|]. split; [done|].
    intros cms Hl. rewrite Hempty, lookup_empty in Hl. discriminate Hl. }
  rewrite bool_decide_eq_true_2 by exact Hne.
  destruct (ms !! ctx) as [cms|] eqn:Hl.
  - destruct (decide (cms = ∅)) as [->|Hcne].
    + rewrite bool_decide_eq_false_2 by (intros Hc; by apply Hc).
      split; [done|]. split; [done|]. split; [done|].
      intros cms [= <-]. exists ∅. split; [done|]. split; [done|].
      intros attr f. rewrite lookup_empty. unfold entry2.
      by rewrite lookup_empty.
    + rewrite bool_decide_eq_true_2 by exact Hcne.
      split; [done|]. split; [|split; [done|]].
      * intros [?|[Hr|[= ?]]]; [done| |done].
        rewrite Hr in Hl. apply no_superior_lookup in Hl. done.
      * intros cms' [= <-]. eexists. split; [reflexivity|]. split; [done|].
        intros attr f. rewrite gather_loop_entry.
        assert (entry2 ∅ attr f = None) as ->
          by (unfold entry2; by rewrite lookup_empty).
        destruct fos as [l|]; simpl;
          (destruct (cms !! f); [|done]); by case_bool_decide.
  - destruct (decide (ms = no_superior)) as [Hr|Hnr].
    + rewrite bool_decide_eq_true_2 by exact Hr.
      split; [done|]. split; [done|]. split; [done|]. intros cms [=].
    + rewrite bool_decide_eq_false_2 by exact Hnr.
      split; [done|]. split; [|split; [done|intros cms [=]]].
      intros [?|[?|[=]]]; done.
Qed.

End Gather.

(** ** Single mode: one merged document, signed once *)

Section Single.
Context `{Collaborators}.
Import Signer.

Lemma attr_of_cases (val : string) :
  attr_of val = "metadata_statement_uris" ∨
  attr_of val = "metadata_statements".
Proof. unfold attr_of. destruct (String.prefix _ _); auto. Qed.

Lemma add_entry_spec (attr f val : string) (w : world) :
  attr = "metadata_statement_uris" ∨ attr = "metadata_statements" →
  reserved_ok (w_req w) →
  add_entry attr f val w =
    (inr tt,
     set_req w (<[attr := VDict (<[f := VStr val]>
                                   (reserved_dict (w_req w) attr))]>
                  (w_req w))).
Proof.
  intros Hattr Hok. unfold add_entry, setitem_nested, setitem_req.
  munfold. unfold getitem, reserved_dict.
  destruct (w_req w !! attr) as [v|] eqn:Hv; simpl.
  - destruct (Hok attr v Hattr Hv) as [m ->]. reflexivity.
  - by rewrite insert_empty.
Qed.

Lemma entry_insert (d : doc) (a g attr f : string) (v : value) :
  entry (<[a := VDict (<[g := v]> (reserved_dict d a))]> d) attr f =
    if bool_decide (attr = a ∧ f = g) then Some v else entry d attr f.
Proof.
  unfold entry, reserved_dict.
  destruct (decide (attr = a)) as [->|Hne].
  - rewrite lookup_insert_eq.
    destruct (decide (f = g)) as [->|Hfg].
    + rewrite lookup_insert_eq. by rewrite bool_decide_eq_true_2.
    + rewrite lookup_insert_ne by done.
      rewrite bool_decide_eq_false_2 by (intros [_ ?]; done).
      destruct (d !! a) as [[]|]; done.
  - rewrite lookup_insert_ne by done.
    by rewrite bool_decide_eq_false_2 by (intros [? _]; done).
Qed.

Lemma reserved_ok_insert (d : doc) (a : string) (m : gmap string value) :
  reserved_ok d → reserved_ok (<[a := VDict m]> d).
Proof.
  intros Hok attr v Hattr Hv.
  destruct (decide (attr = a)) as [->|Hne].
  - rewrite lookup_insert_eq in Hv. injection Hv as <-. by exists m.
  - rewrite lookup_insert_ne in Hv by done. by apply (Hok attr).
Qed.

Lemma merged_nil (cms : gmap string string) (d : doc) : merged cms [] d d.
Proof.
  split; [done|]. split; [done|]. intros attr f.
  destruct (cms !! f); [|done].
  rewrite bool_decide_eq_false_2; [done|].
  intros [Hin _]. by apply elem_of_nil in Hin.
Qed.

Lemma merged_skip (cms : gmap string string) (g : string)
    (fos : list string) (d d' : doc) :
  cms !! g = None → merged cms fos d d' → merged cms (g :: fos) d d'.
Proof.
  intros Hg (Hother & Hkeep & Hentry). split; [done|]. split.
  - intros attr Hno. apply Hkeep. intros (f & val & Hin & Hf & Ha).
    apply Hno. exists f, val. set_solver.
  - intros attr f. rewrite Hentry.
    destruct (cms !! f) as [val|] eqn:Hf; [|done].
    assert (f ≠ g) by congruence.
    repeat case_bool_decide; try done; exfalso; set_solver.
Qed.

Lemma merged_step (cms : gmap string string) (g val : string)
    (fos : list string) (d d' : doc) :
  cms !! g = Some val →
  merged cms fos
    (<[attr_of val := VDict (<[g := VStr val]>
                               (reserved_dict d (attr_of val)))]> d) d' →
  merged cms (g :: fos) d d'.
Proof.
  intros Hg (Hother & Hkeep & Hentry). split; [|split].
  - intros k Hu Hs. rewrite Hother by done.
    apply lookup_insert_ne. destruct (attr_of_cases val); congruence.
  - intros attr Hno. rewrite Hkeep.
    + apply lookup_insert_ne. intros <-. apply Hno. exists g, val.
      set_solver.
    + intros (f & v & Hin & Hf & Ha). apply Hno. exists f, v. set_solver.
  - intros attr f. rewrite Hentry, entry_insert.
    destruct (cms !! f) as [v|] eqn:Hf.
    + repeat case_bool_decide; try done; try (exfalso; set_solver).
      destruct_and!. congruence.
    + case_bool_decide as Hc; [|done]. destruct Hc as [_ ->]. congruence.
Qed.

(** The merging loop does not fail on a request whose reserved claims are
    dictionaries where present; it changes the request only, and leaves
    it merged. *)
Lemma single_loop_spec (cms : gmap string string) (fos : list string)
    (w : world) :
  reserved_ok (w_req w) →
  ∃ d', single_loop cms fos w = (inr tt, set_req w d') ∧
        reserved_ok d' ∧ merged cms fos (w_req w) d'.
Proof.
  revert w. induction fos as [|g fos IH]; intros w Hok; cbn [single_loop].
  - exists (w_req w). split; [by destruct w|]. split; [done|].
    apply merged_nil.
  - destruct (cms !! g) as [val|] eqn:Hg.
    + fold (attr_of val).
      assert ((if String.prefix "http" val
               then add_entry "metadata_statement_uris" g val
               else add_entry "metadata_statements" g val)
              = add_entry (attr_of val) g val) as ->.
      { unfold attr_of. by destruct (String.prefix _ _). }
      unfold mbind, M_bind.
      rewrite add_entry_spec by (done || apply attr_of_cases).
      set (d1 := <[attr_of val := _]> (w_req w)).
      destruct (IH (set_req w d1)) as (d' & Hrun & Hok' & Hm).
      { apply reserved_ok_insert, Hok. }
      exists d'. split; [exact Hrun|]. split; [exact Hok'|].
      by apply (merged_step _ _ val).
    + destruct (IH w Hok) as (d' & Hrun & Hok' & Hm).
      exists d'. split; [exact Hrun|]. split; [exact Hok'|].
      by apply merged_skip.
Qed.

(** C5. Single mode, for a Signer with a non-empty store for the resolved
    context and a request whose reserved claims are dictionaries where
    present: the request is merged with the stored value of every listed
    federation operator that has one, references under
    [metadata_statement_uris] and the rest under [metadata_statements],
    operators without a stored value being skipped; the signing service
    is then called exactly once, on the merged request, and when it
    answers with a non-empty signed statement that statement is returned
    as it is. *)
Theorem single_mode_merges_and_signs_once
    (self : Signer) (context : string) (fos : option (list string))
    (w w' : world) (cms : gmap string string) (ss : SigningService)
    (_res : gmap string string) (sms : string) :
  let fos' := default (keys cms) fos in
  let w1 := (single_loop cms fos' w).2 in
  metadata_statements self !! resolve self context = Some cms →
  cms ≠ ∅ →
  reserved_ok (w_req w) →
  signing_service self = Some ss →
  SigningService.create ss (w_req w1) w1 = (inr _res, w') →
  _res !! "sms" = Some sms →
  sms ≠ "" →
  create_signed_metadata_statement self context fos true w =
    (inr (RToken sms), w') ∧
  merged cms fos' (w_req w) (w_req w') ∧
  w_sign_calls w' = (w_sign_calls w ++ [w_req w'])%list.
Proof.
  intros fos' w1 Hl Hcne Hok Hss Hcreate Hsms Hnonempty.
  destruct (single_loop_spec cms fos' w Hok) as (d' & Hrun & _ & Hm).
  assert (w1 = set_req w d') as Hw1 by (subst w1; by rewrite Hrun).
  pose proof (create_frame ss (w_req w1) w1) as Hf.
  rewrite Hcreate in Hf. simpl in Hf. destruct Hf as (Hreq & Hcalls & _).
  rewrite Hw1 in Hreq, Hcalls. simpl in Hreq, Hcalls.
  split; [|split].
  - unfold create_signed_metadata_statement.
    assert (metadata_statements self ≠ ∅) as Hne.
    { intros Heq. rewrite Heq, lookup_empty in Hl. discriminate Hl. }
    rewrite bool_decide_eq_true_2 by exact Hne. rewrite Hl.
    rewrite bool_decide_eq_false_2 by exact Hcne.
    replace (match fos with Some l => l | None => keys cms end) with fos'
      by (by destruct fos).
    unfold sign, signing_service_create, service. rewrite Hss.
    munfold. rewrite Hrun. simpl.
    rewrite Hw1 in Hcreate. simpl in Hcreate. rewrite Hcreate.
    unfold getitem. rewrite Hsms. simpl.
    rewrite (bool_decide_eq_false_2 (sms = "")) by exact Hnonempty.
    by rewrite andb_false_r.
  - by rewrite Hreq.
  - by rewrite Hreq.
Qed.

End Single.

(** ** Fan-out mode, and lists that match nothing *)

Section Fanout.
Context `{Collaborators}.
Import Signer.

Lemma sign_frame (self : Signer) (ss : SigningService) (w : world) :
  signing_service self = Some ss →
  let w' := (sign self w).2 in
  w_req w' = w_req w ∧
  w_sign_calls w' = (w_sign_calls w ++ [w_req w])%list ∧
  w_log w' = w_log w.
Proof.
  intros Hss. unfold sign, signing_service_create, service. rewrite Hss.
  munfold. simpl. pose proof (create_frame ss (w_req w) w) as Hf.
  destruct (SigningService.create ss (w_req w) w) as [[e|_res] w2];
    simpl in *; [done|].
  by destruct (getitem _res "sms").
Qed.

Lemma always_signs_service (self : Signer) :
  always_signs self → ∃ ss, signing_service self = Some ss.
Proof.
  intros Hsigns. destruct (signing_service self) as [ss|] eqn:Hss; [eauto|].
  destruct (Hsigns (World ∅ [] [] [])) as [sms Hsms].
  unfold sign, signing_service_create, service in Hsms.
  rewrite Hss in Hsms. discriminate Hsms.
Qed.

(** Federation operators without a stored value leave both loops
    without effect. *)
Lemma single_loop_absent (cms : gmap string string) (fos : list string)
    (w : world) :
  Forall (λ f, cms !! f = None) fos →
  single_loop cms fos w = (inr tt, w).
Proof.
  induction 1 as [|f fos Hf _ IH]; cbn [single_loop]; [reflexivity|].
  by rewrite Hf.
Qed.

Lemma fanout_loop_absent (self : Signer) (cms : gmap string string)
    (fos : list string) (_sms : gmap string string) (w : world) :
  Forall (λ f, cms !! f = None) fos →
  fanout_loop self cms fos _sms w = (inr _sms, w).
Proof.
  induction 1 as [|f fos Hf _ IH]; cbn [fanout_loop]; [reflexivity|].
  by rewrite Hf.
Qed.

(** X26. In fan-out mode a non-empty explicit list none of whose operators
    has a stored value raises the [KeyError] that says no metadata
    statements matched; the signing service is not called. *)
Lemma no_match_fanout_raises
    (self : Signer) (context : string) (fos : list string) (w : world)
    (cms : gmap string string) :
  metadata_statements self !! resolve self context = Some cms →
  cms ≠ ∅ →
  fos ≠ [] →
  Forall (λ f, cms !! f = None) fos →
  create_signed_metadata_statement self context (Some fos) false w =
    (inl (KeyError "No metadata statements matched"), w).
Proof.
  intros Hl Hcne Hfos Habsent. unfold create_signed_metadata_statement.
  assert (metadata_statements self ≠ ∅) as Hne.
  { intros Heq. rewrite Heq, lookup_empty in Hl. discriminate Hl. }
  rewrite bool_decide_eq_true_2 by exact Hne. rewrite Hl.
  rewrite bool_decide_eq_false_2 by exact Hcne.
  munfold. rewrite fanout_loop_absent by exact Habsent. simpl.
  by rewrite bool_decide_eq_true_2 by exact Hfos.
Qed.

(** In single mode the same list does not raise: the request is signed
    as it is and the signed statement is returned. *)
Lemma no_match_single_signs
    (self : Signer) (context : string) (fos : list string) (w w' : world)
    (cms : gmap string string) (ss : SigningService)
    (_res : gmap string string) (sms : string) :
  metadata_statements self !! resolve self context = Some cms →
  cms ≠ ∅ →
  Forall (λ f, cms !! f = None) fos →
  signing_service self = Some ss →
  SigningService.create ss (w_req w) w = (inr _res, w') →
  _res !! "sms" = Some sms →
  sms ≠ "" →
  create_signed_metadata_statement self context (Some fos) true w =
    (inr (RToken sms), w') ∧
  w_req w' = w_req w ∧
  w_sign_calls w' = (w_sign_calls w ++ [w_req w])%list.
Proof.
  intros Hl Hcne Habsent Hss Hcreate Hsms Hnonempty.
  pose proof (create_frame ss (w_req w) w) as Hf.
  rewrite Hcreate in Hf. simpl in Hf. destruct Hf as (Hreq & Hcalls & _).
  split; [|done].
  unfold create_signed_metadata_statement.
  assert (metadata_statements self ≠ ∅) as Hne.
  { intros Heq. rewrite Heq, lookup_empty in Hl. discriminate Hl. }
  rewrite bool_decide_eq_true_2 by exact Hne. rewrite Hl.
  rewrite bool_decide_eq_false_2 by exact Hcne.
  unfold sign, signing_service_create, service. rewrite Hss.
  munfold. rewrite single_loop_absent by exact Habsent. simpl.
  rewrite Hcreate. unfold getitem. rewrite Hsms. simpl.
  rewrite (bool_decide_eq_false_2 (sms = "")) by exact Hnonempty.
  by rewrite andb_false_r.
Qed.

(** One iteration of the fan-out loop on a request that does not carry
    the claim: the service sees the request with the one entry, and the
    request is back to what it was afterwards. *)
Lemma fanout_iteration {A} (self : Signer) (attr : string) (v : value)
    (k : string → M A) (w : world) :
  always_signs self →
  w_req w !! attr = None →
  ∃ sms w2,
    (setitem_req attr v;; sms ← sign self; delitem_req attr;; k sms) w
      = k sms w2 ∧
    w_req w2 = w_req w ∧ w_log w2 = w_log w ∧
    w_sign_calls w2 = (w_sign_calls w ++ [<[attr := v]> (w_req w)])%list.
Proof.
  intros Hsigns Hfresh.
  destruct (always_signs_service self Hsigns) as [ss Hss].
  set (w1 := set_req w (<[attr := v]> (w_req w))).
  destruct (Hsigns w1) as [sms Hsms].
  destruct (sign_frame self ss w1 Hss) as (Hreq & Hcalls & Hlog).
  destruct (sign self w1) as [r w2] eqn:Hsign. simpl in *. subst r.
  exists sms, (set_req w2 (w_req w)).
  unfold setitem_req, delitem_req. munfold.
  unfold w1, set_req in Hsign. rewrite Hsign.
  rewrite Hreq, lookup_insert_eq. unfold set_req. simpl.
  rewrite delete_insert_id by exact Hfresh. done.
Qed.

Lemma fanout_docs_cons_Some (cms : gmap string string) (g val : string)
    (fos : list string) (d : doc) :
  cms !! g = Some val →
  fanout_docs cms (g :: fos) d =
    <[attr_of val := VDict {[g := VStr val]}]> d :: fanout_docs cms fos d.
Proof. intros Hg. unfold fanout_docs. simpl. by rewrite Hg. Qed.

Lemma fanout_docs_cons_None (cms : gmap string string) (g : string)
    (fos : list string) (d : doc) :
  cms !! g = None →
  fanout_docs cms (g :: fos) d = fanout_docs cms fos d.
Proof. intros Hg. unfold fanout_docs. simpl. by rewrite Hg. Qed.

(** Fan-out on a request that carries neither reserved claim, with a
    service that always answers: every listed operator with a stored
    value gets an entry in the result, and no other key does; the
    service saw, in order, the request with that operator's entry alone;
    the request ends as it began. *)
Lemma fanout_loop_fresh (self : Signer) (cms : gmap string string)
    (fos : list string) (acc : gmap string string) (w : world) :
  always_signs self →
  w_req w !! "metadata_statement_uris" = None →
  w_req w !! "metadata_statements" = None →
  ∃ m w',
    fanout_loop self cms fos acc w = (inr m, w') ∧
    w_req w' = w_req w ∧ w_log w' = w_log w ∧
    (∀ f, is_Some (m !! f) ↔
          is_Some (acc !! f) ∨ (f ∈ fos ∧ is_Some (cms !! f))) ∧
    w_sign_calls w' = (w_sign_calls w ++ fanout_docs cms fos (w_req w))%list.
Proof.
  intros Hsigns. revert acc w.
  induction fos as [|g fos IH]; intros acc w Hu Hs; cbn [fanout_loop].
  - exists acc, w. split; [done|]. split; [done|]. split; [done|]. split.
    + intros f. split; [auto|]. intros [?|[Hin _]]; [done|].
      by apply elem_of_nil in Hin.
    + unfold fanout_docs. simpl. by rewrite app_nil_r.
  - destruct (cms !! g) as [val|] eqn:Hg.
    + assert (w_req w !! attr_of val = None) as Hfresh.
      { by destruct (attr_of_cases val) as [-> | ->]. }
      assert (∃ sms w2,
        (if String.prefix "http" val
         then setitem_req "metadata_statement_uris" (VDict {[g := VStr val]});;
              sms ← sign self;
              delitem_req "metadata_statement_uris";;
              fanout_loop self cms fos (<[g := sms]> acc)
         else setitem_req "metadata_statements" (VDict {[g := VStr val]});;
              sms ← sign self;
              delitem_req "metadata_statements";;
              fanout_loop self cms fos (<[g := sms]> acc)) w
        = fanout_loop self cms fos (<[g := sms]> acc) w2 ∧
        w_req w2 = w_req w ∧ w_log w2 = w_log w ∧
        w_sign_calls w2 =
          (w_sign_calls w ++
             [<[attr_of val := VDict {[g := VStr val]}]> (w_req w)])%list)
        as (sms & w2 & -> & Hreq2 & Hlog2 & Hcalls2).
      { unfold attr_of in *. destruct (String.prefix "http" val);
          by apply (fanout_iteration self _ _
                      (λ sms, fanout_loop self cms fos (<[g := sms]> acc))). }
      destruct (IH (<[g := sms]> acc) w2) as (m & w' & Hrun & Hreq & Hlog
                                               & Hkeys & Hcalls).
      { by rewrite Hreq2. } { by rewrite Hreq2. }
      exists m, w'. split; [exact Hrun|].
      split; [congruence|]. split; [congruence|]. split.
      * intros f. rewrite Hkeys, lookup_insert_is_Some.
        split.
        -- intros [[<-|[_ ?]]|[? ?]]; [right|by left|right].
           ++ split; [by left|by rewrite Hg].
           ++ split; [by right|done].
        -- intros [?|[Hin ?]].
           ++ destruct (decide (g = f)); [left; by left|].
              left. right. done.
           ++ apply elem_of_cons in Hin as [->|?]; [left; by left|].
              right. done.
      * rewrite Hcalls, Hcalls2, Hreq2.
        rewrite (fanout_docs_cons_Some _ _ val) by exact Hg.
        by rewrite <- app_assoc.
    + destruct (IH acc w Hu Hs) as (m & w' & Hrun & Hreq & Hlog
                                      & Hkeys & Hcalls).
      exists m, w'. split; [exact Hrun|]. split; [done|]. split; [done|].
      split.
      * intros f. rewrite Hkeys. split.
        -- intros [?|[? ?]]; [by left|right]. split; [by right|done].
        -- intros [?|[Hin Hsome]]; [by left|].
           apply elem_of_cons in Hin as [->|?].
           ++ rewrite Hg in Hsome. by destruct Hsome.
           ++ right. done.
      * rewrite Hcalls. by rewrite fanout_docs_cons_None by exact Hg.
Qed.

(** X27. Fan-out on a request that carries neither reserved claim, with a
    signing service that always answers and some listed operator that has
    a stored value: the result has an entry exactly for the listed
    operators with a stored value; the service saw, in list order, the
    request with that operator's entry alone under its claim; and the
    request ends as it began. *)
Lemma fanout_on_fresh_request
    (self : Signer) (context : string) (fos : option (list string))
    (w : world) (cms : gmap string string) :
  let fos' := default (keys cms) fos in
  metadata_statements self !! resolve self context = Some cms →
  cms ≠ ∅ →
  always_signs self →
  w_req w !! "metadata_statement_uris" = None →
  w_req w !! "metadata_statements" = None →
  (∃ f, f ∈ fos' ∧ is_Some (cms !! f)) →
  ∃ m w',
    create_signed_metadata_statement self context fos false w =
      (inr (RMapping m), w') ∧
    w_req w' = w_req w ∧
    (∀ f, is_Some (m !! f) ↔ f ∈ fos' ∧ is_Some (cms !! f)) ∧
    w_sign_calls w' =
      (w_sign_calls w ++ fanout_docs cms fos' (w_req w))%list.
Proof.
  intros fos' Hl Hcne Hsigns Hu Hs (f0 & Hin0 & Hsome0).
  destruct (fanout_loop_fresh self cms fos' ∅ w Hsigns Hu Hs)
    as (m & w' & Hrun & Hreq & _ & Hkeys & Hcalls).
  assert (∀ f, is_Some (m !! f) ↔ f ∈ fos' ∧ is_Some (cms !! f)) as Hkeys'.
  { intros f. rewrite Hkeys, lookup_empty. split; [|auto].
    intros [Hn|?]; [by destruct Hn|done]. }
  exists m, w'. split; [|done].
  unfold create_signed_metadata_statement.
  assert (metadata_statements self ≠ ∅) as Hne.
  { intros Heq. rewrite Heq, lookup_empty in Hl. discriminate Hl. }
  rewrite bool_decide_eq_true_2 by exact Hne. rewrite Hl.
  rewrite bool_decide_eq_false_2 by exact Hcne.
  replace (match fos with Some l => l | None => keys cms end) with fos'
    by (by destruct fos).
  munfold. rewrite Hrun. simpl.
  rewrite (bool_decide_eq_false_2 (m = ∅)); [by rewrite andb_false_r|].
  intros ->. assert (is_Some ((∅ : gmap string string) !! f0)) as Hc
    by (by apply Hkeys').
  rewrite lookup_empty in Hc. by destruct Hc.
Qed.

End Fanout.

(** ** More on the web client: accepted responses and the three requests *)

Section WebClient.
Context `{Collaborators}.
Import WebSigningServiceClient.

(** Running [parse_response] up to the signature check, for a response in
    the accepted range whose payload names the client's issuer. *)
Lemma parse_response_checked
    (self : WebSigningServiceClient) (r : response) (w : world)
    (part1 : string) (body : doc) :
  (200 ≤ status_code r < 300)%Z →
  jws_factory (text r) = Some part1 →
  json_loads part1 = inr body →
  body !! "iss" = Some (VStr (c_iss self)) →
  parse_response self r w =
    let w1 := World (w_req w) (w_sign_calls w)
                    (w_verify_calls w ++ [text r]) (w_log w) in
    match verify_compact (text r)
            (get_verify_key (c_keyjar self) (c_iss self)) with
    | Verified =>
        match headers r !! "Location" with
        | Some location =>
            (inr {["sms" := text r; "loc" := location]}, w1)
        | None => (inl (KeyError "Location"), w1)
        end
    | VerifyAssertion =>
        (inl (JWSException "JWS signature verification error"), w1)
    | VerifyRaises e => (inl e, w1)
    end.
Proof.
  intros Hin Hf Hj Hb. unfold parse_response.
  rewrite bool_decide_eq_true_2 by exact Hin.
  munfold. rewrite Hf, Hj. unfold getitem. rewrite Hb. simpl.
  rewrite bool_decide_eq_true_2 by reflexivity. simpl.
  destruct (verify_compact _ _); simpl; try reflexivity.
  destruct (headers r !! "Location"); reflexivity.
Qed.

(** X1. A response in the accepted range, whose token names the client's
    issuer, verifies against the keys known for that issuer and comes with
    a [Location] header, is answered with the token as it was received
    and that location; the token was handed to the signature check
    exactly once, and nothing else in the world changed. *)
Theorem parse_response_accepts
    (self : WebSigningServiceClient) (r : response) (w : world)
    (part1 location : string) (body : doc) :
  (200 ≤ status_code r < 300)%Z →
  jws_factory (text r) = Some part1 →
  json_loads part1 = inr body →
  body !! "iss" = Some (VStr (c_iss self)) →
  verify_compact (text r) (get_verify_key (c_keyjar self) (c_iss self))
    = Verified →
  headers r !! "Location" = Some location →
  parse_response self r w =
    (inr {["sms" := text r; "loc" := location]},
     World (w_req w) (w_sign_calls w) (w_verify_calls w ++ [text r])
           (w_log w)).
Proof.
  intros Hin Hf Hj Hb Hv Hloc.
  rewrite (parse_response_checked self r w part1 body) by done.
  simpl. by rewrite Hv, Hloc.
Qed.

(** X2. When the signature check fails with an assertion, the response is
    refused with a [JWSException] saying so, whatever its headers; any
    other exception of the check is passed on as it is. *)
Theorem parse_response_bad_signature
    (self : WebSigningServiceClient) (r : response) (w : world)
    (part1 : string) (body : doc) :
  (200 ≤ status_code r < 300)%Z →
  jws_factory (text r) = Some part1 →
  json_loads part1 = inr body →
  body !! "iss" = Some (VStr (c_iss self)) →
  (verify_compact (text r) (get_verify_key (c_keyjar self) (c_iss self))
     = VerifyAssertion →
   (parse_response self r w).1 =
     inl (JWSException "JWS signature verification error")) ∧
  (∀ e, verify_compact (text r)
          (get_verify_key (c_keyjar self) (c_iss self)) = VerifyRaises e →
        (parse_response self r w).1 = inl e).
Proof.
  intros Hin Hf Hj Hb.
  rewrite (parse_response_checked self r w part1 body) by done.
  split; [intros Hv|intros e Hv]; simpl; by rewrite Hv.
Qed.


(** X4. A body in the accepted range that is not a signed token, or whose
    payload has no issuer claim, is refused before any signature check:
    with an [AttributeError] in the first case and the [KeyError] of the
    claim lookup in the second, the world being left as it was. *)
Theorem parse_response_malformed
    (self : WebSigningServiceClient) (r : response) (w : world) :
  (200 ≤ status_code r < 300)%Z →
  (jws_factory (text r) = None →
   parse_response self r w = (inl (AttributeError "jwt"), w)) ∧
  (∀ part1 body,
     jws_factory (text r) = Some part1 →
     json_loads part1 = inr body →
     body !! "iss" = None →
     parse_response self r w = (inl (KeyError "iss"), w)).
Proof.
  intros Hin. unfold parse_response.
  rewrite bool_decide_eq_true_2 by exact Hin. munfold. split.
  - intros Hf. by rewrite Hf.
  - intros part1 body Hf Hj Hb. rewrite Hf, Hj. unfold getitem.
    by rewrite Hb.
Qed.



(** X6. Each of the three requests of the web client (the first signing
    request, the update and the refresh) refuses a response outside the
    accepted range with the [SigningServiceError] of [parse_response],
    without any signature check; an exception of the HTTP client itself is
    passed on. *)
Theorem web_requests_refuse_bad_status
    (self : WebSigningServiceClient) (req : doc) (location : string)
    (w : world) (r : response) :
  ¬ (200 ≤ status_code r < 300)%Z →
  let refused :=
    (inl (SigningServiceError (pretty (status_code r) ++ ": " ++ text r)), w)
  in
  (http_request POST (c_url self) (Some req) (req_args self) = inr r →
   create self req w = refused) ∧
  (http_request PUT location (Some req) (req_args self) = inr r →
   update_metadata_statement self location req w = refused) ∧
  (http_request GET location None (req_args self) = inr r →
   update_signature self location w = refused) ∧
  (∀ e, http_request POST (c_url self) (Some req) (req_args self) = inl e →
        create self req w = (inl e, w)).
Proof.
  intros Hout refused.
  assert (parse_response self r w = refused) as Hp.
  { unfold parse_response. by rewrite bool_decide_eq_false_2. }
  unfold create, update_metadata_statement, update_signature. munfold.
  split; [|split; [|split]].
  - intros ->. exact Hp.
  - intros ->. exact Hp.
  - intros ->. exact Hp.
  - intros e ->. reflexivity.
Qed.

End WebClient.

(** ** More on the local service *)

Section LocalService.
Context `{Collaborators}.
Import InternalSigningService.

(** X7. The claim names of the payload the local service signs are those
    of the request together with those of the add-ons, and updating a
    payload with the add-ons a second time changes nothing. *)
Theorem metadata_dom_idempotent
    (self : InternalSigningService) (req : doc) :
  dom (metadata self req) = dom (i_add_ons self) ∪ dom req ∧
  metadata self (metadata self req) = metadata self req.
Proof.
  split.
  - apply set_eq. intros k. rewrite elem_of_union, !elem_of_dom.
    rewrite metadata_lookup. destruct (i_add_ons self !! k) eqn:Ha.
    + split; [intros _; left; eauto|eauto].
    + split; [by right|]. intros [Hn|?]; [by destruct Hn|done].
  - apply map_eq. intros k. rewrite !metadata_lookup.
    by destruct (i_add_ons self !! k).
Qed.


End LocalService.

(** ** Building a Signer *)

Section SignerInit.
Context `{Collaborators}.
Import Signer.

Lemma init_dict_foldl (items : list (string * string))
    (ms : gmap string (gmap string string)) :
  Forall (λ p, p.1 ∈ CONTEXTS) items →
  init_dict items ms =
    inr (foldl (λ m p, <[p.1 := FileSystem p.2]> m) ms items).
Proof.
  intros Hall. revert ms.
  induction Hall as [|[key _dir] items Hkey _ IH]; intros ms; simpl;
    [reflexivity|].
  rewrite bool_decide_eq_true_2 by exact Hkey. apply IH.
Qed.

Lemma foldl_insert_list_to_map (items : list (string * string))
    (ms : gmap string (gmap string string)) :
  NoDup items.*1 →
  foldl (λ m p, <[p.1 := FileSystem p.2]> m) ms items =
    list_to_map (prod_map id FileSystem <$> items) ∪ ms.
Proof.
  revert ms. induction items as [|[key _dir] items IH]; intros ms Hnd; simpl.
  - by rewrite (left_id_L ∅ (∪)).
  - apply NoDup_cons in Hnd as [Hnotin Hnd]. rewrite IH by exact Hnd.
    rewrite <- insert_union_l. rewrite insert_union_r; [done|].
    apply not_elem_of_list_to_map_1.
    rewrite <- list_fmap_compose.
    by replace (fst ∘ prod_map id FileSystem) with (@fst string string)
      by reflexivity.
Qed.

(** X9. Built from a dictionary whose keys are all contexts, the Signer
    has one store per key, the [FileSystem] over the directory given for
    it, and the signing service and default context it was given. *)
Theorem init_dict_store
    (ss : option SigningService) (d : list (string * string)) (def : string) :
  NoDup d.*1 →
  Forall (λ p, p.1 ∈ CONTEXTS) d →
  init ss (MsDirDict d) def =
    inr (MkSigner (list_to_map (prod_map id FileSystem <$> d)) ss def).
Proof.
  intros Hnd Hall. unfold init.
  rewrite init_dict_foldl by exact Hall.
  rewrite foldl_insert_list_to_map by exact Hnd.
  by rewrite (right_id_L ∅ (∪)).
Qed.

Lemma init_dict_bad_key (pre post : list (string * string))
    (key _dir : string) (ms : gmap string (gmap string string)) :
  Forall (λ p, p.1 ∈ CONTEXTS) pre →
  key ∉ CONTEXTS →
  init_dict (pre ++ (key, _dir) :: post) ms =
    inl (ValueError (key ++ " not expected operation")).
Proof.
  intros Hpre Hkey. revert ms.
  induction Hpre as [|[k d] pre Hk _ IH]; intros ms; simpl.
  - by rewrite bool_decide_eq_false_2.
  - rewrite bool_decide_eq_true_2 by exact Hk. apply IH.
Qed.

Lemma init_listing_bad_item (ms_dir : string) (pre post : list string)
    (item : string) (ms : gmap string (gmap string string)) :
  Forall (λ i, i ∈ CONTEXTS) pre →
  item ∉ CONTEXTS →
  init_listing ms_dir (pre ++ item :: post) ms =
    inl (ValueError (item ++ " not expected operation")).
Proof.
  intros Hpre Hitem. revert ms.
  induction Hpre as [|i pre Hi _ IH]; intros ms; simpl.
  - by rewrite bool_decide_eq_false_2.
  - rewrite bool_decide_eq_true_2 by exact Hi.
    destruct (os_isdir _); apply IH.
Qed.

(** X10. Construction fails with a [ValueError] naming the first key of
    the dictionary, or the first entry of the directory, that is not a
    context; for a directory this holds whether or not the entry is itself
    a directory. *)
Theorem init_rejects_unknown_context
    (ss : option SigningService) (def : string) (key : string) :
  key ∉ CONTEXTS →
  (∀ (pre : list (string * string)) _dir post,
     Forall (λ p, p.1 ∈ CONTEXTS) pre →
     init ss (MsDirDict (pre ++ (key, _dir) :: post)%list) def =
       inl (ValueError (key ++ " not expected operation"))) ∧
  (∀ p (pre post : list string),
     p ≠ "" →
     Forall (λ i, i ∈ CONTEXTS) pre →
     os_listdir p = inr (pre ++ key :: post)%list →
     init ss (MsDirPath p) def =
       inl (ValueError (key ++ " not expected operation"))).
Proof.
  intros Hkey. split.
  - intros pre _dir post Hpre. unfold init.
    by rewrite init_dict_bad_key.
  - intros p pre post Hp Hpre Hls. unfold init.
    rewrite bool_decide_eq_true_2 by exact Hp. rewrite Hls.
    by rewrite init_listing_bad_item.
Qed.

Lemma init_dict_contexts (items : list (string * string))
    (ms ms' : gmap string (gmap string string)) :
  init_dict items ms = inr ms' →
  (∀ k, is_Some (ms !! k) → k ∈ CONTEXTS) →
  ∀ k, is_Some (ms' !! k) → k ∈ CONTEXTS.
Proof.
  revert ms. induction items as [|[key _dir] items IH]; intros ms; simpl.
  - by intros [= <-].
  - case_bool_decide as Hkey; [|discriminate].
    intros Hrun Hms. apply (IH _ Hrun). intros k.
    rewrite lookup_insert_is_Some. intros [<-|[_ ?]]; [done|by apply Hms].
Qed.

Lemma init_listing_contexts (ms_dir : string) (items : list string)
    (ms ms' : gmap string (gmap string string)) :
  init_listing ms_dir items ms = inr ms' →
  (∀ k, is_Some (ms !! k) → k ∈ CONTEXTS) →
  ∀ k, is_Some (ms' !! k) → k ∈ CONTEXTS.
Proof.
  revert ms. induction items as [|item items IH]; intros ms; simpl.
  - by intros [= <-].
  - case_bool_decide as Hitem; [|discriminate].
    destruct (os_isdir _); intros Hrun Hms; apply (IH _ Hrun); [|done].
    intros k. rewrite lookup_insert_is_Some.
    intros [<-|[_ ?]]; [done|by apply Hms].
Qed.

Lemma no_superior_contexts (k : string) :
  is_Some (no_superior !! k) → k ∈ CONTEXTS.
Proof.
  intros [cms Hk]. unfold no_superior in Hk.
  rewrite !lookup_insert_Some, lookup_singleton_Some in Hk.
  unfold CONTEXTS.
  destruct Hk as [[<- _]|[_ [[<- _]|[_ [<- _]]]]]; set_solver.
Qed.

(** X11. However a Signer is built, the contexts it has a store for are
    among the known contexts, and it holds the signing service and the
    default context it was given. *)
Theorem init_store_contexts
    (ss : option SigningService) (ms_dir : ms_dir_t) (def : string)
    (self : Signer) :
  init ss ms_dir def = inr self →
  (∀ k, is_Some (metadata_statements self !! k) → k ∈ CONTEXTS) ∧
  signing_service self = ss ∧ def_context self = def.
Proof.
  unfold init. intros Hinit.
  assert (∃ ms, (match ms_dir with
                 | MsDirDict d => init_dict d ∅
                 | MsDirPath p =>
                     if bool_decide (p ≠ "") then
                       match os_listdir p with
                       | inr items => init_listing p items ∅
                       | inl e => inl e
                       end
                     else inr MIN_SET
                 | MsDirNone => inr MIN_SET
                 end) = inr ms ∧ self = MkSigner ms ss def)
    as (ms & Hms & ->).
  { destruct (match ms_dir with MsDirDict _ => _ | _ => _ end) as [e|ms];
      [discriminate|]. exists ms. split; [done|]. congruence. }
  split; [|done]. simpl.
  assert (∀ k, is_Some ((∅ : gmap string (gmap string string)) !! k) →
               k ∈ CONTEXTS) as Hempty.
  { intros k. rewrite lookup_empty. by intros [? ?]. }
  assert (∀ k, is_Some (MIN_SET !! k) → k ∈ CONTEXTS) as Hmin.
  { rewrite MIN_SET_no_superior. apply no_superior_contexts. }
  destruct ms_dir as [d|p|].
  - by apply (init_dict_contexts d ∅).
  - case_bool_decide.
    + destruct (os_listdir p) as [e|items]; [discriminate|].
      by apply (init_listing_contexts p items ∅).
    + by injection Hms as <-.
  - by injection Hms as <-.
Qed.

Lemma init_listing_lookup (ms_dir : string) (items : list string)
    (ms : gmap string (gmap string string)) (k : string) :
  Forall (λ i, i ∈ CONTEXTS) items →
  ∃ ms', init_listing ms_dir items ms = inr ms' ∧
    ms' !! k =
      if bool_decide (k ∈ items ∧ os_isdir (ms_dir ++ "/" ++ k) = true)
      then Some (FileSystem (ms_dir ++ "/" ++ k))
      else ms !! k.
Proof.
  intros Hall. revert ms.
  induction Hall as [|item items Hitem _ IH]; intros ms; cbn [init_listing].
  - exists ms. split; [done|]. rewrite bool_decide_eq_false_2; [done|].
    intros [Hin _]. by apply elem_of_nil in Hin.
  - rewrite bool_decide_eq_true_2 by exact Hitem.
    destruct (os_isdir (ms_dir ++ "/" ++ item)) eqn:Hdir.
    + destruct (IH (<[item := FileSystem (ms_dir ++ "/" ++ item)]> ms))
        as (ms' & -> & Hl).
      exists ms'. split; [done|]. rewrite Hl.
      destruct (decide (k = item)) as [->|Hne].
      * rewrite lookup_insert_eq.
        rewrite (bool_decide_eq_true_2 (item ∈ item :: items ∧ _))
          by (split; [by left|done]).
        by case_bool_decide.
      * rewrite lookup_insert_ne by done.
        repeat case_bool_decide; try done; exfalso; set_solver.
    + destruct (IH ms) as (ms' & -> & Hl).
      exists ms'. split; [done|]. rewrite Hl.
      repeat case_bool_decide; try done; exfalso.
      * set_solver.
      * destruct_and!.
        match goal with Hin : k ∈ item :: items |- _ =>
          apply elem_of_cons in Hin as [->|?] end; [congruence|set_solver].
Qed.

(** X12. Built from a directory whose entries are all context names, the
    Signer has a store exactly for the entries that are directories: the
    [FileSystem] over that subdirectory; plain files are passed over. *)
Theorem init_directory_store
    (ss : option SigningService) (p def : string) (items : list string) :
  p ≠ "" →
  os_listdir p = inr items →
  Forall (λ i, i ∈ CONTEXTS) items →
  ∃ self, init ss (MsDirPath p) def = inr self ∧
    ∀ k, metadata_statements self !! k =
           if bool_decide (k ∈ items ∧ os_isdir (p ++ "/" ++ k) = true)
           then Some (FileSystem (p ++ "/" ++ k))
           else None.
Proof.
  intros Hp Hls Hall.
  assert (∃ ms, init_listing p items ∅ = inr ms) as [ms Hms].
  { destruct (init_listing_lookup p items ∅ "" Hall) as (ms & Hms & _).
    by exists ms. }
  exists (MkSigner ms ss def). split.
  - unfold init. rewrite bool_decide_eq_true_2 by exact Hp.
    by rewrite Hls, Hms.
  - intros k. simpl.
    destruct (init_listing_lookup p items ∅ k Hall) as (ms' & Hms' & Hl).
    rewrite Hms in Hms'. injection Hms' as <-.
    by rewrite Hl, lookup_empty.
Qed.


End SignerInit.

(** ** More on the Signer: lists, contexts, failures *)

Section SignerMore.
Context `{Collaborators}.
Import Signer.

Lemma store_nonempty (self : Signer) (ctx : string)
    (cms : gmap string string) :
  metadata_statements self !! ctx = Some cms → metadata_statements self ≠ ∅.
Proof. intros Hl Heq. rewrite Heq, lookup_empty in Hl. discriminate Hl. Qed.

(** Entering the aggregation branch. *)
Lemma create_aggregates
    (self : Signer) (context : string) (fos : option (list string))
    (single : bool) (cms : gmap string string) :
  metadata_statements self !! resolve self context = Some cms →
  cms ≠ ∅ →
  create_signed_metadata_statement self context fos single =
    let fos := match fos with
               | None => keys cms
               | Some l => l
               end in
    _sms ← (if single then
              single_loop cms fos;;
              sms ← sign self;
              mret (RToken sms)
            else
              m ← fanout_loop self cms fos ∅;
              mret (RMapping m));
    if bool_decide (fos ≠ []) && falsy _sms
    then raise (KeyError "No metadata statements matched")
    else mret _sms.
Proof.
  intros Hl Hcne. unfold create_signed_metadata_statement.
  rewrite bool_decide_eq_true_2 by (by eapply store_nonempty).
  rewrite Hl. by rewrite bool_decide_eq_false_2.
Qed.

(** X14. [metadata_statement_fos] lists, without repetition, exactly the
    federation operators that have a stored value in the resolved context;
    for a context without a store it is the empty list, where signing and
    gathering would fail. *)
Theorem metadata_statement_fos_spec (self : Signer) (context : string) :
  NoDup (metadata_statement_fos self context) ∧
  (∀ f, f ∈ metadata_statement_fos self context ↔
        ∃ cms, metadata_statements self !! resolve self context = Some cms ∧
               is_Some (cms !! f)) ∧
  (metadata_statements self !! resolve self context = None →
   metadata_statement_fos self context = []).
Proof.
  unfold metadata_statement_fos. fold (resolve self context).
  destruct (metadata_statements self !! resolve self context) as [cms|].
  - unfold keys. split; [apply NoDup_fst_map_to_list|]. split; [|done].
    intros f. rewrite list_elem_of_fmap. split.
    + intros ([f' v] & -> & Hin). apply elem_of_map_to_list in Hin.
      exists cms. split; [done|]. by exists v.
    + intros (cms' & [= <-] & [v Hv]). exists (f, v). split; [done|].
      by apply elem_of_map_to_list.
  - split; [apply NoDup_nil_2|]. split; [|done].
    intros f. split; [intros Hin; by apply elem_of_nil in Hin|].
    by intros (cms & [=] & _).
Qed.

(** X15. Leaving the list of federation operators out is the same as
    passing what [metadata_statement_fos] returns for the context, both
    when signing and when gathering. *)
Theorem default_fos_is_metadata_statement_fos
    (self : Signer) (context : string) (single : bool) (w : world) :
  create_signed_metadata_statement self context None single w =
    create_signed_metadata_statement self context
      (Some (metadata_statement_fos self context)) single w ∧
  gather_metadata_statements self context None w =
    gather_metadata_statements self context
      (Some (metadata_statement_fos self context)) w.
Proof.
  unfold create_signed_metadata_statement, gather_metadata_statements,
    metadata_statement_fos.
  fold (resolve self context).
  destruct (metadata_statements self !! resolve self context); done.
Qed.

Lemma resolve_default (self : Signer) :
  resolve self (def_context self) = resolve self "".
Proof.
  unfold resolve. rewrite (bool_decide_eq_true_2 ("" = "")) by done.
  by case_bool_decide.
Qed.

(** X16. The empty context stands for the Signer's default context:
    signing, gathering and listing with it are the same as with the
    default context named. *)
Theorem empty_context_is_default
    (self : Signer) (fos : option (list string)) (single : bool) :
  create_signed_metadata_statement self "" fos single =
    create_signed_metadata_statement self (def_context self) fos single ∧
  gather_metadata_statements self "" fos =
    gather_metadata_statements self (def_context self) fos ∧
  metadata_statement_fos self "" =
    metadata_statement_fos self (def_context self).
Proof.
  unfold create_signed_metadata_statement, gather_metadata_statements,
    metadata_statement_fos.
  fold (resolve self ""). fold (resolve self (def_context self)).
  by rewrite resolve_default.
Qed.

(** X17. An explicit empty list is not an error. In fan-out mode it gives
    the empty dictionary without any call of the signing service; in
    single mode the request is signed as it is. *)
Theorem explicit_empty_list
    (self : Signer) (context : string) (w : world)
    (cms : gmap string string) :
  metadata_statements self !! resolve self context = Some cms →
  cms ≠ ∅ →
  create_signed_metadata_statement self context (Some []) false w =
    (inr (RMapping ∅), w) ∧
  create_signed_metadata_statement self context (Some []) true w =
    match sign self w with
    | (inr sms, w') => (inr (RToken sms), w')
    | (inl e, w') => (inl e, w')
    end.
Proof.
  intros Hl Hcne. rewrite !(create_aggregates _ _ _ _ cms) by done.
  split; [reflexivity|]. munfold. simpl.
  by destruct (sign self w) as [[e|sms] w'].
Qed.




(** Every entry of what the gathering loop builds from the empty
    dictionary sits under one of the two reserved names and is not
    empty. *)
Lemma gather_loop_shape (cms : gmap string string) (fos : list string)
    (acc : gmap string (gmap string string)) :
  (∀ attr m, acc !! attr = Some m →
     (attr = "metadata_statement_uris" ∨ attr = "metadata_statements") ∧
     m ≠ ∅) →
  ∀ attr m, gather_loop cms fos acc !! attr = Some m →
    (attr = "metadata_statement_uris" ∨ attr = "metadata_statements") ∧
    m ≠ ∅.
Proof.
  revert acc. induction fos as [|g fos IH]; intros acc Hacc;
    cbn [gather_loop]; [done|].
  destruct (cms !! g) as [s|]; [|by apply IH].
  fold (attr_of s).
  assert (∀ m0, ∀ attr m,
    <[attr_of s := <[g := s]> m0]> acc !! attr = Some m →
    (attr = "metadata_statement_uris" ∨ attr = "metadata_statements") ∧
    m ≠ ∅) as Hstep.
  { intros m0 attr m. rewrite lookup_insert_Some.
    intros [[<- <-]|[_ Hm]]; [|by apply Hacc].
    split; [apply attr_of_cases|]. exact (insert_non_empty _ _ _). }
  destruct (acc !! attr_of s); apply IH; apply Hstep.
Qed.

(** X20. What gathering returns has entries under the two reserved names
    only, and no empty entry: a reserved name is present exactly when some
    listed operator contributes to it. *)
Theorem gather_result_shape
    (self : Signer) (context : string) (fos : option (list string))
    (w w' : world) (res : gmap string (gmap string string)) :
  gather_metadata_statements self context fos w = (inr res, w') →
  ∀ attr m, res !! attr = Some m →
    (attr = "metadata_statement_uris" ∨ attr = "metadata_statements") ∧
    ∃ f val, m !! f = Some val ∧ attr_of val = attr.
Proof.
  intros Hrun attr m Hm.
  assert ((attr = "metadata_statement_uris" ∨ attr = "metadata_statements")
          ∧ m ≠ ∅ ∧
          ∀ f val, m !! f = Some val → attr_of val = attr)
    as (Hattr & Hne & Hall).
  { revert Hrun. unfold gather_metadata_statements.
    assert (∀ k, (∅ : gmap string (gmap string string)) !! k = Some m → False)
      as Hempty by (intros k; by rewrite lookup_empty).
    case_bool_decide; [|intros [= <- _]; by destruct (Hempty attr)].
    destruct (metadata_statements self !! _) as [cms|].
    - case_bool_decide; [|intros [= <- _]; by destruct (Hempty attr)].
      intros [= <- _].
      destruct (gather_loop_shape cms _ ∅
                  ltac:(intros a m0; by rewrite lookup_empty) attr m Hm)
        as [Ha Hn].
      split; [done|]. split; [done|]. intros f val Hf.
      pose proof (gather_loop_entry cms
        (match fos with Some l => l | None => keys cms end) ∅ attr f) as He.
      unfold entry2 at 1 in He. rewrite Hm in He. simpl in He.
      rewrite Hf in He.
      assert (entry2 ∅ attr f = None) as Hnone
        by (unfold entry2; by rewrite lookup_empty).
      rewrite Hnone in He.
      destruct (cms !! f) as [val'|]; [|discriminate].
      case_bool_decide as Hc; [|discriminate].
      injection He as ->. by destruct Hc as [_ ->].
    - case_bool_decide; [intros [= <- _]; by destruct (Hempty attr)|].
      munfold. discriminate. }
  split; [done|].
  destruct (map_choose m Hne) as (f & val & Hf).
  exists f, val. split; [done|]. by apply (Hall f).
Qed.

(** X21. Gathering and single mode agree: under a reserved claim of the
    merged request, an operator maps to the value gathering reports for
    it, and to what the request held where gathering reports none. *)
Theorem single_mode_merges_what_gather_reports
    (cms : gmap string string) (fos : list string) (w : world) :
  reserved_ok (w_req w) →
  (single_loop cms fos w).1 = inr tt ∧
  ∀ attr f,
    entry (w_req (single_loop cms fos w).2) attr f =
      match entry2 (gather_loop cms fos ∅) attr f with
      | Some val => Some (VStr val)
      | None => entry (w_req w) attr f
      end.
Proof.
  intros Hok.
  destruct (single_loop_spec cms fos w Hok)
    as (d' & -> & _ & (_ & _ & Hentry)).
  split; [done|]. intros attr f. simpl. rewrite Hentry, gather_loop_entry.
  assert (entry2 ∅ attr f = None) as ->
    by (unfold entry2; by rewrite lookup_empty).
  destruct (cms !! f); [|done]. by case_bool_decide.
Qed.

(** X22. A root Signer passes on the failure of a remote signing service:
    when the service answers outside the accepted range, the call fails
    with the [SigningServiceError] carrying status and body; the request
    is unchanged and nothing was verified. *)
Theorem root_with_web_service_refused
    (self : Signer) (context : string) (fos : option (list string))
    (single : bool) (w : world) (c : WebSigningServiceClient)
    (r : response) :
  metadata_statements self = no_superior ∨
  metadata_statements self !! resolve self context = Some ∅ →
  signing_service self = Some (SWeb c) →
  http_request POST (c_url c) (Some (w_req w))
               (WebSigningServiceClient.req_args c) = inr r →
  ¬ (200 ≤ status_code r < 300)%Z →
  create_signed_metadata_statement self context fos single w =
    (inl (SigningServiceError (pretty (status_code r) ++ ": " ++ text r)),
     World (w_req w) (w_sign_calls w ++ [w_req w]) (w_verify_calls w)
           (w_log w)).
Proof.
  intros Hroot Hss Hhttp Hout.
  rewrite root_is_sign_as_self by exact Hroot.
  unfold sign_as_self, signing_service_create, service. rewrite Hss.
  unfold SigningService.create, WebSigningServiceClient.create.
  munfold. simpl. rewrite Hhttp.
  unfold WebSigningServiceClient.parse_response.
  by rewrite bool_decide_eq_false_2.
Qed.

(** X23. A Signer without a signing service can gather but not sign: on
    the paths that sign the request as it is, signing fails with an
    [AttributeError] and nothing is recorded. *)
Theorem root_without_service
    (self : Signer) (context : string) (fos : option (list string))
    (single : bool) (w : world) :
  metadata_statements self = no_superior ∨
  metadata_statements self !! resolve self context = Some ∅ →
  signing_service self = None →
  create_signed_metadata_statement self context fos single w =
    (inl (AttributeError "NoneType"), w) ∧
  gather_metadata_statements self context fos w = (inr ∅, w).
Proof.
  intros Hroot Hss. split.
  - rewrite root_is_sign_as_self by exact Hroot.
    unfold sign_as_self, signing_service_create, service. by rewrite Hss.
  - unfold gather_metadata_statements.
    assert (metadata_statements self ≠ ∅) as Hne.
    { destruct Hroot as [->|Hl]; [apply no_superior_nonempty|].
      by eapply store_nonempty. }
    rewrite bool_decide_eq_true_2 by exact Hne.
    destruct Hroot as [Hms|Hl].
    + destruct (metadata_statements self !! resolve self context) as [cms|]
        eqn:Hl.
      * rewrite Hms in Hl. apply no_superior_lookup in Hl as ->.
        by rewrite bool_decide_eq_false_2 by (intros Hc; by apply Hc).
      * by rewrite bool_decide_eq_true_2.
    + rewrite Hl.
      by rewrite bool_decide_eq_false_2 by (intros Hc; by apply Hc).
Qed.

End SignerMore.

(** ** The order of the list does not matter *)

Section Order.
Context `{Collaborators}.
Import Signer.




(** X25. Gathering does not depend on the order of the list nor on
    repetitions in it. *)
Theorem gather_order_irrelevant
    (self : Signer) (context : string) (fos fos' : list string) (w : world) :
  (∀ f, f ∈ fos ↔ f ∈ fos') →
  gather_metadata_statements self context (Some fos) w =
    gather_metadata_statements self context (Some fos') w.
Proof.
  intros Hsame. unfold gather_metadata_statements.
  case_bool_decide; [|done].
  destruct (metadata_statements self !! resolve self context) as [cms|];
    [|done].
  case_bool_decide; [|done]. munfold. do 2 f_equal.
  assert (∀ attr f, entry2 (gather_loop cms fos ∅) attr f =
                    entry2 (gather_loop cms fos' ∅) attr f) as Hentry.
  { intros attr f. rewrite !gather_loop_entry.
    destruct (cms !! f); [|done].
    repeat case_bool_decide; try done; exfalso; naive_solver. }
  assert (∀ l attr m, gather_loop cms l ∅ !! attr = Some m → m ≠ ∅)
    as Hshape.
  { intros l attr m Hm.
    by destruct (gather_loop_shape cms l ∅
                   ltac:(intros a m0; by rewrite lookup_empty) attr m Hm). }
  assert (∀ l l' attr m,
    (∀ a f, entry2 (gather_loop cms l ∅) a f =
            entry2 (gather_loop cms l' ∅) a f) →
    gather_loop cms l ∅ !! attr = Some m →
    gather_loop cms l' ∅ !! attr = Some m) as Hone.
  { intros l l' attr m He Hm.
    destruct (map_choose m (Hshape l attr m Hm)) as (f & v & Hf).
    pose proof (He attr f) as Hef. unfold entry2 in Hef.
    rewrite Hm in Hef. simpl in Hef. rewrite Hf in Hef.
    destruct (gather_loop cms l' ∅ !! attr) as [m'|] eqn:Hm';
      [|discriminate].
    f_equal. apply map_eq. intros g.
    pose proof (He attr g) as Hg. unfold entry2 in Hg.
    rewrite Hm, Hm' in Hg. by simpl in Hg. }
  apply map_eq. intros attr.
  destruct (gather_loop cms fos ∅ !! attr) as [m|] eqn:Hm.
  - symmetry. by apply (Hone fos fos').
  - destruct (gather_loop cms fos' ∅ !! attr) as [m'|] eqn:Hm'; [|done].
    apply (Hone fos' fos) in Hm'; [|done]. congruence.
Qed.

End Order.

(** * Runs on concrete inputs

    The theorems above, applied with the collaborators of [Fake]. *)

#[local] Existing Instance Fake.collaborators.

(** C7 at status 404 with body [not found]. *)
Lemma parse_response_bad_status_witness :
  ¬ (200 ≤ 404 < 300)%Z ∧
  WebSigningServiceClient.parse_response Fake.client
      (Response 404 "not found" ∅) Fake.w0 =
    (inl (SigningServiceError "404: not found"), Fake.w0).
Proof.
  split; [lia|].
  apply (parse_response_bad_status Fake.client (Response 404 "not found" ∅)).
  simpl. lia.
Defined.

(** C1 as stated fails: on an issuer mismatch the error raised is not a
    [SigningServiceError]. *)
Lemma parse_response_issuer_mismatch_not_SigningServiceError :
  let r := Response 200 "https://evil.example.org" ∅ in
  (200 ≤ status_code r < 300)%Z ∧
  json_loads (text r) = inr {["iss" := VStr "https://evil.example.org"]} ∧
  value_eq_str (VStr "https://evil.example.org") (c_iss Fake.client) = false ∧
  ¬ ∃ msg, (WebSigningServiceClient.parse_response Fake.client r Fake.w0).1
           = inl (SigningServiceError msg).
Proof.
  simpl. split; [lia|]. split; [reflexivity|]. split; [reflexivity|].
  intros [msg Hmsg]. vm_compute in Hmsg. discriminate Hmsg.
Qed.

Lemma parse_response_issuer_mismatch_witness :
  WebSigningServiceClient.parse_response Fake.client
      (Response 200 "https://evil.example.org" ∅) Fake.w0 =
    (inl AssertionError, Fake.w0).
Proof.
  apply (parse_response_issuer_mismatch Fake.client
           (Response 200 "https://evil.example.org" ∅) Fake.w0
           "https://evil.example.org"
           {["iss" := VStr "https://evil.example.org"]}
           (VStr "https://evil.example.org")).
  - simpl. lia.
  - reflexivity.
  - reflexivity.
  - reflexivity.
  - reflexivity.
Defined.

(** C3 as stated fails: an add-on replaces the caller's claim of the same
    name in the payload that is signed. *)
Lemma create_add_on_overwrites_claim :
  let req : doc := {["scope" := VStr "email"]} in
  InternalSigningService.metadata Fake.local_add_ons req !! "scope"
    = Some (VStr "openid") ∧
  ¬ (∀ k v, req !! k = Some v →
            InternalSigningService.metadata Fake.local_add_ons req !! k
              = Some v).
Proof.
  intros req. split; [reflexivity|]. intros Hkeep.
  assert (req !! "scope" = Some (VStr "email")) as Hreq by reflexivity.
  apply Hkeep in Hreq. vm_compute in Hreq. discriminate Hreq.
Qed.

(** C4 on a root Signer built without [ms_dir]. *)
Lemma root_signs_as_self_witness :
  Signer.create_signed_metadata_statement Fake.root "" None false Fake.w_rp =
    (inr (RMapping {["https://op.example.org" :=
                       "eyJ.https://op.example.org.client_name"]}),
     World Fake.req_rp [Fake.req_rp] [] []).
Proof.
  refine (proj1 (root_signs_as_self Fake.root "" None false Fake.w_rp _
                   (SInternal Fake.local)
                   {["sms" := "eyJ.https://op.example.org.client_name"]}
                   "eyJ.https://op.example.org.client_name" _ _ _ _)).
  - left. apply MIN_SET_no_superior.
  - reflexivity.
  - vm_compute. reflexivity.
  - reflexivity.
Defined.

(** C10 on a Signer with an empty store mapping. *)
Lemma empty_store_returns_None_witness :
  Signer.create_signed_metadata_statement Fake.unconfigured "discovery"
      (Some [Fake.fo]) true Fake.w_rp =
    (inr RNone, Fake.w_rp).
Proof.
  apply (empty_store_returns_None Fake.unconfigured "discovery"
           (Some [Fake.fo]) true Fake.w_rp).
  reflexivity.
Defined.

(** C8 as stated fails: a Signer that is not a root and has no store for
    the context, because its store mapping is the empty dictionary, raises
    nothing and logs nothing. *)
Lemma empty_store_unknown_context_no_error :
  metadata_statements Fake.unconfigured ≠ Signer.no_superior ∧
  metadata_statements Fake.unconfigured
    !! Signer.resolve Fake.unconfigured "discovery" = None ∧
  Signer.create_signed_metadata_statement Fake.unconfigured "discovery"
      None false Fake.w_rp =
    (inr RNone, Fake.w_rp).
Proof.
  split; [|split; reflexivity].
  intros Heq. symmetry in Heq. exact (no_superior_nonempty Heq).
Qed.

Lemma unknown_context_fails_witness :
  Signer.create_signed_metadata_statement Fake.signer "discovery" None false
      Fake.w_rp =
    (inl (KeyError "discovery"),
     World Fake.req_rp [] []
       [LogSignerItems "https://op.example.org" (Signer.keys <$> Fake.store);
        LogNoStatements "discovery"]).
Proof.
  apply (unknown_context_fails Fake.signer "discovery" None false Fake.w_rp).
  - intros Heq. apply (f_equal (λ m, m !! "register")) in Heq.
    vm_compute in Heq. discriminate Heq.
  - intros Heq. apply (f_equal (λ m, m !! "discovery")) in Heq.
    vm_compute in Heq. discriminate Heq.
  - reflexivity.
Defined.

(** C5 on a store with one reference and one inline statement. *)
Lemma single_mode_merges_and_signs_once_witness :
  let merged_req : doc :=
    {["client_name" := VStr "rp";
      "metadata_statement_uris" :=
        VDict {[Fake.fo_uri := VStr "http://x/stmtA"]};
      "metadata_statements" := VDict {[Fake.fo := VStr "eyJ.signed"]}]} in
  Signer.create_signed_metadata_statement Fake.signer "" None true Fake.w_rp =
    (inr (RToken ("eyJ.https://op.example.org." ++
                  "client_name,metadata_statement_uris,metadata_statements")),
     World merged_req [merged_req] [] []).
Proof.
  intros merged_req.
  refine (proj1 (single_mode_merges_and_signs_once Fake.signer "" None
                   Fake.w_rp _ Fake.register_store (SInternal Fake.local)
                   {["sms" := _]} _ _ _ _ _ _ _ _)).
  - reflexivity.
  - intros Heq. apply (f_equal (λ m, m !! Fake.fo)) in Heq.
    vm_compute in Heq. discriminate Heq.
  - intros attr v [-> | ->] Hv; vm_compute in Hv; discriminate Hv.
  - reflexivity.
  - vm_compute. reflexivity.
  - reflexivity.
  - discriminate.
Defined.

(** The local service of the test double answers every request. *)
Lemma fake_signer_always_signs : always_signs Fake.signer.
Proof. intros w. eexists. reflexivity. Qed.

(** Fan-out on a request without reserved claims: one signed statement per
    stored operator, each made from the request with that operator's entry
    alone, and the request as it was afterwards. *)
Lemma fanout_run_on_fresh_request :
  Signer.create_signed_metadata_statement Fake.signer "" None false
      Fake.w_rp =
    (inr (RMapping
            {[Fake.fo_uri :=
                "eyJ.https://op.example.org.client_name,metadata_statement_uris";
              Fake.fo :=
                "eyJ.https://op.example.org.client_name,metadata_statements"]}),
     World Fake.req_rp
           (fanout_docs Fake.register_store (Signer.keys Fake.register_store)
                        Fake.req_rp)
           [] []) ∧
  fanout_docs Fake.register_store (Signer.keys Fake.register_store)
              Fake.req_rp =
    [ <["metadata_statements" :=
          VDict {[Fake.fo := VStr "eyJ.signed"]}]> Fake.req_rp;
      <["metadata_statement_uris" :=
          VDict {[Fake.fo_uri := VStr "http://x/stmtA"]}]> Fake.req_rp ].
Proof. split; vm_compute; reflexivity. Qed.

(** C2 on a failing input: in single mode, a list whose only operator has
    no stored value raises nothing; the request is signed as it is and the
    signed statement is returned. *)
Lemma no_match_single_mode_returns_token :
  Fake.register_store ≠ ∅ ∧
  Fake.register_store !! "https://other.example.org" = None ∧
  Signer.create_signed_metadata_statement Fake.signer ""
      (Some ["https://other.example.org"]) true Fake.w_rp =
    (inr (RToken "eyJ.https://op.example.org.client_name"),
     World Fake.req_rp [Fake.req_rp] [] []).
Proof.
  split; [|split].
  - intros Heq. apply (f_equal (λ m, m !! Fake.fo)) in Heq.
    vm_compute in Heq. discriminate Heq.
  - reflexivity.
  - vm_compute. reflexivity.
Qed.

(** C6 on a failing input: in fan-out mode, an inline statement the
    request already carried is overwritten in the document that is signed
    and gone from the request afterwards. *)
Lemma fanout_deletes_carried_claim :
  Signer.create_signed_metadata_statement Fake.signer "" (Some [Fake.fo])
      false Fake.w_pre =
    (inr (RMapping {[Fake.fo :=
            "eyJ.https://op.example.org.client_name,metadata_statements"]}),
     World Fake.req_rp
           [ {["client_name" := VStr "rp";
               "metadata_statements" :=
                 VDict {[Fake.fo := VStr "eyJ.signed"]}]} ]
           [] []) ∧
  Fake.req_pre !! "metadata_statements"
    = Some (VDict {["https://swamid.example.org" := VStr "eyJ.caller"]}) ∧
  Fake.req_rp !! "metadata_statements" = None.
Proof.
  split; [|split; reflexivity]. vm_compute. reflexivity.
Qed.

(** ** Runs of the further properties *)

Lemma parse_response_accepts_witness :
  WebSigningServiceClient.parse_response Fake.client Fake.accepted Fake.w0 =
    (inr {["sms" := "https://signer.example.org";
           "loc" := "https://signer.example.org/ms/1"]},
     World ∅ [] ["https://signer.example.org"] []).
Proof.
  refine (parse_response_accepts Fake.client Fake.accepted Fake.w0
            "https://signer.example.org" "https://signer.example.org/ms/1"
            {["iss" := VStr "https://signer.example.org"]} _ _ _ _ _ _).
  - simpl. lia.
  - reflexivity.
  - reflexivity.
  - reflexivity.
  - reflexivity.
  - reflexivity.
Defined.

Lemma parse_response_bad_signature_witness :
  (@WebSigningServiceClient.parse_response Fake.strict Fake.client
     (Response 200 "eyJ.token" ∅) Fake.w0).1 =
    inl (JWSException "JWS signature verification error").
Proof.
  refine (proj1 (@parse_response_bad_signature Fake.strict Fake.client
                   (Response 200 "eyJ.token" ∅) Fake.w0 "eyJ.token"
                   {["iss" := VStr "https://signer.example.org"]} _ _ _ _) _).
  - simpl. lia.
  - reflexivity.
  - reflexivity.
  - reflexivity.
  - reflexivity.
Defined.


Lemma parse_response_malformed_witness :
  @WebSigningServiceClient.parse_response Fake.strict Fake.client
      (Response 200 "<html>busy</html>" ∅) Fake.w0 =
    (inl (AttributeError "jwt"), Fake.w0) ∧
  @WebSigningServiceClient.parse_response Fake.strict Fake.client
      (Response 201 "eyJ.anonymous" ∅) Fake.w0 =
    (inl (KeyError "iss"), Fake.w0).
Proof.
  split.
  - refine (proj1 (@parse_response_malformed Fake.strict Fake.client
                     (Response 200 "<html>busy</html>" ∅) Fake.w0 _) _).
    + simpl. lia.
    + reflexivity.
  - refine (proj2 (@parse_response_malformed Fake.strict Fake.client
                     (Response 201 "eyJ.anonymous" ∅) Fake.w0 _)
                  "eyJ.anonymous" ∅ _ _ _).
    + simpl. lia.
    + reflexivity.
    + reflexivity.
    + reflexivity.
Defined.


Lemma web_requests_refuse_bad_status_witness :
  @WebSigningServiceClient.create Fake.strict Fake.client Fake.req_rp
      Fake.w0 =
    (inl (SigningServiceError "404: not found"), Fake.w0) ∧
  @WebSigningServiceClient.update_signature Fake.strict Fake.client
      "https://signer.example.org/ms/1" Fake.w0 =
    (inl (SigningServiceError "404: not found"), Fake.w0).
Proof.
  assert (¬ (200 ≤ status_code (Response 404 "not found" ∅) < 300)%Z)
    as Hout by (simpl; lia).
  pose proof (@web_requests_refuse_bad_status Fake.strict Fake.client
                Fake.req_rp "https://signer.example.org/ms/1" Fake.w0
                (Response 404 "not found" ∅) Hout)
    as (Hcreate & _ & Hrefresh & _).
  split; [exact (Hcreate eq_refl)|exact (Hrefresh eq_refl)].
Defined.

Lemma init_dict_store_witness :
  Signer.init None
      (Signer.MsDirDict [("register", "/ms/register");
                         ("discovery", "/ms/discovery")]) "register" =
    inr (MkSigner {["register" := ∅; "discovery" := ∅]} None "register").
Proof.
  refine (init_dict_store None
            [("register", "/ms/register"); ("discovery", "/ms/discovery")]
            "register" _ _).
  - by apply (bool_decide_unpack _).
  - repeat constructor; by apply (bool_decide_unpack _).
Defined.

Lemma init_rejects_unknown_context_witness :
  Signer.init None
      (Signer.MsDirDict [("register", "/ms/register");
                         ("registration", "/ms/registration")]) "register" =
    inl (ValueError "registration not expected operation").
Proof.
  refine (proj1 (init_rejects_unknown_context None "register" "registration"
                   _)
                [("register", "/ms/register")] "/ms/registration" [] _).
  - by apply (bool_decide_unpack _).
  - repeat constructor.
Defined.

Lemma init_store_contexts_witness :
  "discovery" ∈ CONTEXTS ∧
  signing_service
    (MkSigner {["register" := ∅; "discovery" := ∅]} None "register") = None.
Proof.
  assert (Signer.init None
            (Signer.MsDirDict [("register", "/ms/register");
                               ("discovery", "/ms/discovery")]) "register" =
          inr (MkSigner {["register" := ∅; "discovery" := ∅]} None
                        "register")) as Hinit by (vm_compute; reflexivity).
  destruct (init_store_contexts None _ "register" _ Hinit) as (Hctx & Hss & _).
  split; [|exact Hss].
  apply Hctx. exists ∅. vm_compute. reflexivity.
Defined.

Lemma init_directory_store_witness :
  ∃ self, @Signer.init Fake.strict None (Signer.MsDirPath "/ms") "register"
            = inr self ∧
    ∀ k, metadata_statements self !! k =
           if bool_decide (k ∈ ["register"; "discovery"] ∧
                           @os_isdir Fake.strict ("/ms" ++ "/" ++ k) = true)
           then Some (@FileSystem Fake.strict ("/ms" ++ "/" ++ k))
           else None.
Proof.
  refine (@init_directory_store Fake.strict None "/ms" "register"
            ["register"; "discovery"] _ _ _).
  - discriminate.
  - reflexivity.
  - repeat constructor; by apply (bool_decide_unpack _).
Defined.

Lemma explicit_empty_list_witness :
  Signer.create_signed_metadata_statement Fake.signer "" (Some []) false
      Fake.w_rp =
    (inr (RMapping ∅), Fake.w_rp).
Proof.
  refine (proj1 (explicit_empty_list Fake.signer "" Fake.w_rp
                   Fake.register_store _ _)).
  - reflexivity.
  - intros Heq. apply (f_equal (λ m, m !! Fake.fo)) in Heq.
    vm_compute in Heq. discriminate Heq.
Defined.



Lemma gather_result_shape_witness :
  ∃ f val,
    ({[Fake.fo := "eyJ.signed"]} : gmap string string) !! f = Some val ∧
    attr_of val = "metadata_statements".
Proof.
  refine (proj2 (gather_result_shape Fake.signer "" None Fake.w_rp Fake.w_rp
                   {["metadata_statements" := {[Fake.fo := "eyJ.signed"]};
                     "metadata_statement_uris" :=
                       {[Fake.fo_uri := "http://x/stmtA"]}]}
                   _ "metadata_statements" {[Fake.fo := "eyJ.signed"]} _)).
  - vm_compute. reflexivity.
  - reflexivity.
Defined.

Lemma single_mode_merges_what_gather_reports_witness :
  (Signer.single_loop Fake.register_store [Fake.fo; Fake.fo_uri]
                      Fake.w_rp).1 = inr tt.
Proof.
  refine (proj1 (single_mode_merges_what_gather_reports Fake.register_store
                   [Fake.fo; Fake.fo_uri] Fake.w_rp _)).
  intros attr v [-> | ->] Hv; vm_compute in Hv; discriminate Hv.
Defined.

Lemma root_with_web_service_refused_witness :
  @Signer.create_signed_metadata_statement Fake.strict Fake.web_root ""
      None false Fake.w_rp =
    (inl (SigningServiceError "404: not found"),
     World Fake.req_rp [Fake.req_rp] [] []).
Proof.
  refine (@root_with_web_service_refused Fake.strict Fake.web_root "" None
            false Fake.w_rp Fake.client (Response 404 "not found" ∅)
            _ _ _ _).
  - left. apply MIN_SET_no_superior.
  - reflexivity.
  - reflexivity.
  - simpl. lia.
Defined.

Lemma root_without_service_witness :
  Signer.create_signed_metadata_statement Fake.gather_only "" None false
      Fake.w_rp =
    (inl (AttributeError "NoneType"), Fake.w_rp) ∧
  Signer.gather_metadata_statements Fake.gather_only "" None Fake.w_rp =
    (inr ∅, Fake.w_rp).
Proof.
  refine (root_without_service Fake.gather_only "" None false Fake.w_rp
            _ _).
  - left. apply MIN_SET_no_superior.
  - reflexivity.
Defined.


Lemma gather_order_irrelevant_witness :
  Signer.gather_metadata_statements Fake.signer ""
      (Some [Fake.fo; Fake.fo_uri]) Fake.w_rp =
    Signer.gather_metadata_statements Fake.signer ""
      (Some [Fake.fo_uri; Fake.fo; Fake.fo]) Fake.w_rp.
Proof.
  refine (gather_order_irrelevant Fake.signer ""
            [Fake.fo; Fake.fo_uri] [Fake.fo_uri; Fake.fo; Fake.fo]
            Fake.w_rp _).
  intros f. rewrite !elem_of_cons. rewrite !elem_of_nil. tauto.
Defined.

Lemma fanout_on_fresh_request_witness :
  ∃ m w',
    Signer.create_signed_metadata_statement Fake.signer "" None false
        Fake.w_rp = (inr (RMapping m), w') ∧
    w_req w' = w_req Fake.w_rp ∧
    (∀ f, is_Some (m !! f) ↔
          f ∈ default (Signer.keys Fake.register_store) None ∧
          is_Some (Fake.register_store !! f)) ∧
    w_sign_calls w' =
      (w_sign_calls Fake.w_rp ++
         fanout_docs Fake.register_store
           (default (Signer.keys Fake.register_store) None)
           (w_req Fake.w_rp))%list.
Proof.
  refine (fanout_on_fresh_request Fake.signer "" None Fake.w_rp
            Fake.register_store _ _ _ _ _ _).
  - reflexivity.
  - intros Heq. apply (f_equal (λ m, m !! Fake.fo)) in Heq.
    vm_compute in Heq. discriminate Heq.
  - exact fake_signer_always_signs.
  - reflexivity.
  - reflexivity.
  - exists Fake.fo. split; [|by eexists].
    apply (bool_decide_unpack _). vm_compute. exact I.
Defined.

Lemma no_match_fanout_raises_witness :
  Signer.create_signed_metadata_statement Fake.signer ""
      (Some ["https://other.example.org"]) false Fake.w_rp =
    (inl (KeyError "No metadata statements matched"), Fake.w_rp).
Proof.
  refine (no_match_fanout_raises Fake.signer ""
            ["https://other.example.org"] Fake.w_rp Fake.register_store
            _ _ _ _).
  - reflexivity.
  - intros Heq. apply (f_equal (λ m, m !! Fake.fo)) in Heq.
    vm_compute in Heq. discriminate Heq.
  - discriminate.
  - repeat constructor.
Defined.
